(** * claudeck: the PTY wrapper's output classifier, command dispatcher,
      control surface and cleanup, embedded from
      [src/wrapper/claude_deck_wrapper.py] (and, for the HTTP handler, its
      older sibling [src/claude_deck_wrapper.py]).

    Python [str] values are sequences of Unicode code points and are
    modelled as [list N]; [bytes] values are [list byte].  Operating-system
    calls are modelled by explicit state passing over a small world record
    with an exception result. *)

From Stdlib Require Import String Ascii Strings.Byte.
From Stdlib Require Import NArith ZArith Bool Arith Lia List.
Import ListNotations.

Set Implicit Arguments.

(* ===================================================================== *)
(** ** Python [str] as a list of code points *)
(* ===================================================================== *)

Module Text.
Local Open Scope N_scope.

Definition text := list N.

(** An ASCII literal of the source, as code points. *)
Definition cps (s : string) : text :=
  map (fun a => N_of_ascii a) (list_ascii_of_string s).

Definition ESC : N := 27.   (* '\x1b' *)
Definition LF : N := 10.    (* '\n' *)
Definition CR : N := 13.    (* '\r' *)

Fixpoint eqb (a b : text) : bool :=
  match a, b with
  | [], [] => true
  | x :: a', y :: b' => N.eqb x y && eqb a' b'
  | _, _ => false
  end.

(** [s.startswith(p)] *)
Fixpoint startswith (p s : text) : bool :=
  match p, s with
  | [], _ => true
  | _ :: _, [] => false
  | a :: p', b :: s' => N.eqb a b && startswith p' s'
  end.

(** [p in s] for strings: [p] occurs as a contiguous substring of [s]. *)
Fixpoint contains (p s : text) : bool :=
  startswith p s ||
  match s with
  | [] => false
  | _ :: s' => contains p s'
  end.

(** [any(phrase in s for phrase in phrases)] *)
Definition any_in (phrases : list text) (s : text) : bool :=
  existsb (fun phrase => contains phrase s) phrases.

(** [str.isspace] on one character: the characters [str.strip()] removes. *)
Definition isspace (c : N) : bool :=
  ((9 <=? c) && (c <=? 13)) || ((28 <=? c) && (c <=? 32)) ||
  (c =? 0x85) || (c =? 0xA0) || (c =? 0x1680) ||
  ((0x2000 <=? c) && (c <=? 0x200A)) ||
  (c =? 0x2028) || (c =? 0x2029) || (c =? 0x202F) || (c =? 0x205F) ||
  (c =? 0x3000).

Fixpoint lstrip (s : text) : text :=
  match s with
  | [] => []
  | c :: s' => if isspace c then lstrip s' else s
  end.

Definition rstrip (s : text) : text := rev (lstrip (rev s)).

(** [s.strip()] *)
Definition strip (s : text) : text := rstrip (lstrip s).

(** [s.split(sep)] for a one-character separator: never the empty list. *)
Fixpoint split (sep : N) (s : text) : list text :=
  match s with
  | [] => [[]]
  | c :: s' =>
      if N.eqb c sep then [] :: split sep s'
      else match split sep s' with
           | l :: ls => (c :: l) :: ls
           | [] => [[c]]
           end
  end.

(** [s[-n:]] for [n > 0]: the last [n] characters, all of [s] when it is
    shorter. *)
Definition last_chars (n : nat) (s : text) : text :=
  skipn (length s - n)%nat s.

(** *** The regular expression [\x1b\[[0-9;]*[mK]] *)

Definition is_ansi_param (c : N) : bool :=
  ((48 <=? c) && (c <=? 57)) || (c =? 59).          (* [0-9;] *)

Definition is_ansi_final (c : N) : bool :=
  (c =? 109) || (c =? 75).                          (* [mK] *)

(** Length of a match of [[0-9;]*[mK]] at the start of [s].  The two
    character classes are disjoint, so the greedy star followed by the
    final class has at most one way to match. *)
Fixpoint ansi_tail_len (s : text) : option nat :=
  match s with
  | [] => None
  | c :: s' =>
      if is_ansi_param c then option_map S (ansi_tail_len s')
      else if is_ansi_final c then Some 1%nat
      else None
  end.

(** Length of a match of the whole pattern at the start of [s]. *)
Definition ansi_match_len (s : text) : option nat :=
  match s with
  | e :: b :: s' =>
      if (e =? ESC) && (b =? 91)                    (* ESC then '[' *)
      then option_map (fun n => S (S n)) (ansi_tail_len s')
      else None
  | _ => None
  end.

(** [re.sub(pattern, '', s)]: scanning left to right, a match found at
    the current position is deleted and the scan resumes after it;
    otherwise the character is kept.  [skip] counts the characters of the
    current match still to delete. *)
Fixpoint re_sub_ansi_from (skip : nat) (s : text) : text :=
  match s with
  | [] => []
  | c :: s' =>
      match skip with
      | S k => re_sub_ansi_from k s'
      | O =>
          match ansi_match_len s with
          | Some (S k) => re_sub_ansi_from k s'
          | _ => c :: re_sub_ansi_from 0 s'
          end
      end
  end.

Definition re_sub_ansi (s : text) : text := re_sub_ansi_from 0 s.

End Text.

(* ===================================================================== *)
(** ** [bytes.decode('utf-8', errors=...)] and [str.encode()] *)
(* ===================================================================== *)

Module Utf8.
Import Text.
Local Open Scope N_scope.

(** The two error handlers the source names. *)
Inductive errors := Ignore | Replace.

Definition on_error (e : errors) (rest : text) : text :=
  match e with
  | Ignore => rest
  | Replace => 0xFFFD :: rest
  end.

Definition is_continuation (b : N) : bool := (0x80 <=? b) && (b <? 0xC0).

(** The decoder over byte values.  An invalid start byte is an error of
    one byte; a bad continuation byte ends the error just before it, and
    decoding resumes at that byte; a sequence cut off by the end of the
    data is one error reaching to the end. *)
Fixpoint decode_values (e : errors) (s : list N) : text :=
  match s with
  | [] => []
  | ch :: s1 =>
    if ch <? 0x80 then ch :: decode_values e s1
    else if ch <? 0xC2 then on_error e (decode_values e s1)
    else if ch <? 0xE0 then
      match s1 with
      | [] => on_error e []
      | ch2 :: s2 =>
        if negb (is_continuation ch2) then on_error e (decode_values e s1)
        else (ch * 64 + ch2 - (0xC0 * 64 + 0x80)) :: decode_values e s2
      end
    else if ch <? 0xF0 then
      match s1 with
      | [] => on_error e []
      | ch2 :: s2 =>
        if negb (is_continuation ch2)
           || (if ch2 <? 0xA0 then ch =? 0xE0 else ch =? 0xED)
        then on_error e (decode_values e s1)
        else
          match s2 with
          | [] => on_error e []
          | ch3 :: s3 =>
            if negb (is_continuation ch3) then on_error e (decode_values e s2)
            else (ch * 4096 + ch2 * 64 + ch3
                  - (0xE0 * 4096 + 0x80 * 64 + 0x80)) :: decode_values e s3
          end
      end
    else if ch <? 0xF5 then
      match s1 with
      | [] => on_error e []
      | ch2 :: s2 =>
        if negb (is_continuation ch2)
           || (if ch2 <? 0x90 then ch =? 0xF0 else ch =? 0xF4)
        then on_error e (decode_values e s1)
        else
          match s2 with
          | [] => on_error e []
          | ch3 :: s3 =>
            if negb (is_continuation ch3) then on_error e (decode_values e s2)
            else
              match s3 with
              | [] => on_error e []
              | ch4 :: s4 =>
                if negb (is_continuation ch4)
                then on_error e (decode_values e s3)
                else (ch * 262144 + ch2 * 4096 + ch3 * 64 + ch4
                      - (0xF0 * 262144 + 0x80 * 4096 + 0x80 * 64 + 0x80))
                     :: decode_values e s4
              end
          end
      end
    else on_error e (decode_values e s1)
  end.

(** [data.decode('utf-8', errors=e)] *)
Definition decode (e : errors) (data : list byte) : text :=
  decode_values e (map Byte.to_N data).

Definition is_surrogate (c : N) : bool := (0xD800 <=? c) && (c <=? 0xDFFF).

(** A code point [str.encode()] accepts. *)
Definition encodable (c : N) : bool := (c <? 0x110000) && negb (is_surrogate c).

(** The UTF-8 byte values of one encodable code point. *)
Definition encode_cp (c : N) : list N :=
  if c <? 0x80 then [c]
  else if c <? 0x800 then [0xC0 + c / 64; 0x80 + c mod 64]
  else if c <? 0x10000 then
    [0xE0 + c / 4096; 0x80 + (c / 64) mod 64; 0x80 + c mod 64]
  else
    [0xF0 + c / 262144; 0x80 + (c / 4096) mod 64;
     0x80 + (c / 64) mod 64; 0x80 + c mod 64].

Definition encode_values (t : text) : list N := flat_map encode_cp t.

Definition byte_of_N (n : N) : byte :=
  match Byte.of_N n with
  | Some b => b
  | None => x00
  end.

(** [s.encode()]: [None] stands for [UnicodeEncodeError] (a lone
    surrogate in [s]). *)
Definition encode (t : text) : option (list byte) :=
  if forallb encodable t then Some (map byte_of_N (encode_values t))
  else None.

End Utf8.

(* ===================================================================== *)
(** ** [class ClaudeState] of [src/wrapper/claude_deck_wrapper.py] *)
(* ===================================================================== *)

Module Classifier.
Import Text Utf8.
Local Open Scope string_scope.

Record ClaudeState := mkClaudeState {
  mode : string;
  model : string;
  current_prompt : text;
  buffer : text;
  last_update : Z          (* the clock reading of [time.time()] *)
}.

(** [ClaudeState.__init__] *)
Definition init (now : Z) : ClaudeState :=
  {| mode := "unknown"; model := "unknown"; current_prompt := [];
     buffer := []; last_update := now |}.

Definition set_mode (m : string) (self : ClaudeState) : ClaudeState :=
  {| mode := m; model := model self; current_prompt := current_prompt self;
     buffer := buffer self; last_update := last_update self |}.

Definition set_model (m : string) (self : ClaudeState) : ClaudeState :=
  {| mode := mode self; model := m; current_prompt := current_prompt self;
     buffer := buffer self; last_update := last_update self |}.

Definition set_current_prompt (p : text) (self : ClaudeState) : ClaudeState :=
  {| mode := mode self; model := model self; current_prompt := p;
     buffer := buffer self; last_update := last_update self |}.

Definition set_buffer (b : text) (self : ClaudeState) : ClaudeState :=
  {| mode := mode self; model := model self;
     current_prompt := current_prompt self;
     buffer := b; last_update := last_update self |}.

Definition set_last_update (t : Z) (self : ClaudeState) : ClaudeState :=
  {| mode := mode self; model := model self;
     current_prompt := current_prompt self;
     buffer := buffer self; last_update := t |}.

(** The buffer capacity, the literal [2000] of [parse_output]. *)
Definition BUFFER_CAP : nat := 2000.

(** The two non-ASCII glyphs of the markers: U+23F5 and U+23F8. *)
Definition AUTO_GLYPHS : text := [0x23F5; 0x23F5]%N.
Definition AUTO_ACCEPT_ON : text :=
  (AUTO_GLYPHS ++ cps " auto-accept edits on")%list.
Definition PLAN_MODE_ON : text := ([0x23F8%N] ++ cps " plan mode on")%list.

Definition CONFIRM_PHRASES : list text :=
  [cps "(y/n)"; cps "yes/no"; cps "confirm"; cps "continue?"].
Definition CHOICE_PHRASES : list text :=
  [cps "1."; cps "2."; cps "3."; cps "select"; cps "choose"].

(** The test of the prompt loop on a stripped line:
    [clean_line and '>' in clean_line and not clean_line.startswith('[')]. *)
Definition is_prompt_line (clean_line : text) : bool :=
  negb (Text.eqb clean_line []) && contains (cps ">") clean_line
  && negb (startswith (cps "[") clean_line).

(** [for line in reversed(lines): ... break], started on the reversed
    list; [prompt] is the value [current_prompt] keeps when no line
    passes the test. *)
Fixpoint scan_lines (reversed_lines : list text) (prompt : text) : text :=
  match reversed_lines with
  | [] => prompt
  | line :: rest =>
      let clean_line := strip line in
      if is_prompt_line clean_line then clean_line
      else scan_lines rest prompt
  end.

Section WithLower.

(** [str.lower()]: full Unicode lower-casing, whose table is not part of
    the repository. *)
Variable lower : text -> text.

(** The [if]/[elif] chain of [parse_output] (lines 50-83). *)
Definition update_mode (text : text) (self : ClaudeState) : ClaudeState :=
  let lower_text := lower text in
  if contains AUTO_ACCEPT_ON text then set_mode "auto-accept" self
  else if contains PLAN_MODE_ON text then set_mode "plan" self
  else if contains (cps "? for shortcuts") text then set_mode "interactive" self
  else if contains (cps "Press Ctrl-C again to exit") text
       then set_mode "exit-confirm" self
  else if contains (cps "Welcome to Claude Code") text
       then set_mode "startup" self
  else if any_in CONFIRM_PHRASES lower_text then set_mode "confirmation" self
  else if any_in CHOICE_PHRASES lower_text then set_mode "choice" self
  else if contains (cps "thinking") lower_text
          || contains (cps "processing") lower_text
       then set_mode "thinking" self
  else if contains (cps "error") lower_text
          || contains (cps "failed") lower_text
       then set_mode "error" self
  else if contains (cps "Set model to opus") text then set_model "opus" self
  else if contains (cps "Set model to Default") text
          || contains (cps "Set model to sonnet") text
       then set_model "sonnet" self
  else if contains (cps ">") text && negb (contains AUTO_GLYPHS text)
       then set_mode "interactive" self
  else self.

(** Lines 86-93: the prompt is taken from the whole buffer. *)
Definition extract_prompt (self : ClaudeState) : ClaudeState :=
  let clean_buffer := re_sub_ansi (buffer self) in
  let lines := split LF clean_buffer in
  set_current_prompt (scan_lines (rev lines) (current_prompt self)) self.

(** [ClaudeState.parse_output]; [now] is what [time.time()] returns. *)
Definition parse_output (now : Z) (self : ClaudeState) (data : list byte)
  : ClaudeState :=
  let text := decode Ignore data in
  let self := set_buffer (buffer self ++ text)%list self in
  let self := set_last_update now self in
  let self :=
    if (BUFFER_CAP <? length (buffer self))%nat
    then set_buffer (last_chars BUFFER_CAP (buffer self)) self
    else self in
  let self := update_mode text self in
  extract_prompt self.

(** The main loop feeds chunks one after the other; each comes with the
    clock reading of its call. *)
Definition ingest_all (self : ClaudeState) (chunks : list (Z * list byte))
  : ClaudeState :=
  fold_left (fun st c => parse_output (fst c) st (snd c)) chunks self.

(** The states the object can be in: the constructed one and any state
    [parse_output] makes from a state it can be in. *)
Inductive reachable : ClaudeState -> Prop :=
| reach_init : forall now, reachable (init now)
| reach_parse : forall now self data,
    reachable self -> reachable (parse_output now self data).

End WithLower.

(** *** [_get_button_config] and [get_state] *)

Record ButtonConfig := mkButtonConfig {
  shift_tab_icon : string;
  shift_tab_label : string;
  shift_tab_enabled : bool;
  context_hint : string
}.

Definition default_config : ButtonConfig :=
  mkButtonConfig "default" "Normal" true "".

(** [default_config | mode_configs[self.mode]]: no mode's entry changes
    [shift_tab_enabled]. *)
Definition get_button_config (self : ClaudeState) : ButtonConfig :=
  let m := mode self in
  if String.eqb m "auto-accept"
  then mkButtonConfig "auto-accept" "Auto" true "Auto-accept mode active"
  else if String.eqb m "plan"
  then mkButtonConfig "plan" "Plan" true "Plan mode active"
  else if String.eqb m "exit-confirm"
  then mkButtonConfig "warning" "Exit?" true "Press Ctrl+C again to exit"
  else if String.eqb m "confirmation"
  then mkButtonConfig "confirm" "Confirm" true "Confirmation required"
  else if String.eqb m "choice"
  then mkButtonConfig "choose" "Choose" true "Selection required"
  else if String.eqb m "thinking"
  then mkButtonConfig "default" "Normal" true "Claude is thinking..."
  else if String.eqb m "error"
  then mkButtonConfig "error" "Error" true "Error state"
  else if String.eqb m "startup"
  then mkButtonConfig "startup" "Start" true "Claude Code starting up"
  else if String.eqb m "interactive"
  then mkButtonConfig "interactive" "Ready" true "Ready for input"
  else default_config.

Record StateDict := mkStateDict {
  sd_mode : string;
  sd_model : string;
  sd_prompt : text;
  sd_last_update : Z;
  sd_buffer_size : nat;
  sd_button_config : ButtonConfig
}.

(** [ClaudeState.get_state] *)
Definition get_state (self : ClaudeState) : StateDict :=
  {| sd_mode := mode self; sd_model := model self;
     sd_prompt := current_prompt self;
     sd_last_update := last_update self;
     sd_buffer_size := length (buffer self);
     sd_button_config := get_button_config self |}.

End Classifier.

(* ===================================================================== *)
(** ** The wrapper object, the operating system and exceptions *)
(* ===================================================================== *)

Module Effects.
Import Text Utf8.

(** Parsed JSON, as [json.loads] returns it ([JNum] stands for both
    numeric types). *)
#[local] Unset Elimination Schemes.
Inductive json :=
| JNull
| JBool (b : bool)
| JNum (z : Z)
| JStr (t : text)
| JArr (l : list json)
| JObj (items : list (text * json)).
#[local] Set Elimination Schemes.

(** The exception classes the wrapper meets.  [ProcessLookupError] is a
    subclass of [OSError]; [UnicodeEncodeError] and [JSONDecodeError] are
    subclasses of [ValueError]; every class is a subclass of
    [Exception]. *)
Inductive exn :=
| Exception
| OSError
| ProcessLookupError
| ValueError
| UnicodeEncodeError
| JSONDecodeError
| AttributeError
| TermiosError.

(** [isinstance(e, cls)] for a raised [e] and the class of an [except]
    clause. *)
Definition isinstance (e cls : exn) : bool :=
  match cls, e with
  | Exception, _ => true
  | OSError, (OSError | ProcessLookupError) => true
  | ProcessLookupError, ProcessLookupError => true
  | ValueError, (ValueError | UnicodeEncodeError | JSONDecodeError) => true
  | UnicodeEncodeError, UnicodeEncodeError => true
  | JSONDecodeError, JSONDecodeError => true
  | AttributeError, AttributeError => true
  | TermiosError, TermiosError => true
  | _, _ => false
  end.

Inductive result (A : Type) :=
| Ret (a : A)
| Raise (e : exn).
Arguments Ret {A} a.
Arguments Raise {A} e.

(** [class ClaudeWrapper]: the fields set by [__init__]. *)
Record ClaudeWrapper := mkClaudeWrapper {
  master_fd : option Z;
  slave_fd : option Z;
  claude_pid : option Z;
  state : Classifier.ClaudeState;
  port : Z;
  running : bool;
  debug : bool;
  debug_file : option text;
  debug_handle : option Z;            (* the open file object, by identity *)
  http_server : option Z;             (* the HTTPServer object, by identity *)
  original_settings : option (list Z);
  claude_args : list text
}.

Definition set_running (b : bool) (self : ClaudeWrapper) : ClaudeWrapper :=
  {| master_fd := master_fd self; slave_fd := slave_fd self;
     claude_pid := claude_pid self; state := state self; port := port self;
     running := b; debug := debug self; debug_file := debug_file self;
     debug_handle := debug_handle self; http_server := http_server self;
     original_settings := original_settings self;
     claude_args := claude_args self |}.

(** What is written to the debug file (time stamps left out). *)
Inductive debug_entry :=
| DbgSendCommand (command : text)
| DbgSendCommandValue (command : json)   (* a command that is not a [str] *)
| DbgSentRaw (data : list byte)
| DbgSentRawCR (data : list byte)
| DbgLogEnded.

(** Calls that reach outside the process, in the order they happen.
    [ok] is [false] when the call raised. *)
Inductive event :=
| EvWrite (fd : Z) (data : list byte) (ok : bool)
| EvSleep (microseconds : N)
| EvDebugWrite (handle : Z) (entry : debug_entry)
| EvDebugFlush (handle : Z)
| EvDebugClose (handle : Z)
| EvPrint (message : text)
| EvTcsetattr (settings : list Z) (ok : bool)
| EvHttpShutdown (server : Z)
| EvHttpServerClose (server : Z)
| EvClose (fd : Z) (ok : bool)
| EvKill (pid : Z) (signal : Z) (ok : bool).

(** The wrapper object together with the part of the operating system
    its methods touch. *)
Record World := mkWorld {
  self : ClaudeWrapper;
  open_fds : list Z;          (* the descriptor table *)
  write_faults : list bool;   (* for the coming writes to open descriptors:
                                 [true] when the write fails (the child is
                                 gone); none fails once the list is used up *)
  processes : list Z;         (* the process table, zombies included *)
  open_files : list Z;        (* file objects not yet closed *)
  tty_ok : bool;              (* whether stdin is a terminal *)
  trace : list event
}.

Definition with_self (s : ClaudeWrapper) (w : World) : World :=
  mkWorld s (open_fds w) (write_faults w) (processes w) (open_files w)
          (tty_ok w) (trace w).
Definition with_open_fds (l : list Z) (w : World) : World :=
  mkWorld (self w) l (write_faults w) (processes w) (open_files w)
          (tty_ok w) (trace w).
Definition with_write_faults (l : list bool) (w : World) : World :=
  mkWorld (self w) (open_fds w) l (processes w) (open_files w)
          (tty_ok w) (trace w).
Definition with_open_files (l : list Z) (w : World) : World :=
  mkWorld (self w) (open_fds w) (write_faults w) (processes w) l
          (tty_ok w) (trace w).
Definition emit (e : event) (w : World) : World :=
  mkWorld (self w) (open_fds w) (write_faults w) (processes w) (open_files w)
          (tty_ok w) (trace w ++ [e]).

(** *** State and exception monad *)

Definition M (A : Type) : Type := World -> World * result A.

Definition ret {A} (a : A) : M A := fun w => (w, Ret a).
Definition raise {A} (e : exn) : M A := fun w => (w, Raise e).
Definition bind {A B} (c : M A) (k : A -> M B) : M B :=
  fun w =>
    match c w with
    | (w', Ret a) => k a w'
    | (w', Raise e) => (w', Raise e)
    end.

(** [try: body  except cls: handler] *)
Definition try_except {A} (body : M A) (cls : exn) (handler : M A) : M A :=
  fun w =>
    match body w with
    | (w', Raise e) => if isinstance e cls then handler w' else (w', Raise e)
    | r => r
    end.

Definition get_self : M ClaudeWrapper := fun w => (w, Ret (self w)).
Definition when (b : bool) (c : M unit) : M unit := if b then c else ret tt.

Declare Scope monad_scope.
Delimit Scope monad_scope with monad.
Notation "x <- c ;; k" := (bind c (fun x => k))
  (at level 61, c at next level, right associativity) : monad_scope.
Notation "c ;; k" := (bind c (fun _ => k))
  (at level 61, right associativity) : monad_scope.
Local Open Scope monad_scope.

Definition mem (x : Z) (l : list Z) : bool := existsb (Z.eqb x) l.
Definition remove (x : Z) (l : list Z) : list Z :=
  filter (fun y => negb (Z.eqb x y)) l.

(** *** The calls *)

(** [os.write(fd, data)]: [OSError] on a closed descriptor, and when the
    other side is gone. *)
Definition os_write (fd : Z) (data : list byte) : M unit :=
  fun w =>
    if mem fd (open_fds w) then
      match write_faults w with
      | true :: rest =>
          (emit (EvWrite fd data false) (with_write_faults rest w),
           Raise OSError)
      | false :: rest =>
          (emit (EvWrite fd data true) (with_write_faults rest w), Ret tt)
      | [] => (emit (EvWrite fd data true) w, Ret tt)
      end
    else (emit (EvWrite fd data false) w, Raise OSError).

(** [os.close(fd)]: [OSError] when [fd] is not open. *)
Definition os_close (fd : Z) : M unit :=
  fun w =>
    if mem fd (open_fds w)
    then (emit (EvClose fd true) (with_open_fds (remove fd (open_fds w)) w),
          Ret tt)
    else (emit (EvClose fd false) w, Raise OSError).

(** [os.kill(pid, sig)]: [ProcessLookupError] when there is no such
    process; a signalled child stays in the table until it is waited
    for. *)
Definition os_kill (pid sig : Z) : M unit :=
  fun w =>
    if mem pid (processes w)
    then (emit (EvKill pid sig true) w, Ret tt)
    else (emit (EvKill pid sig false) w, Raise ProcessLookupError).

Definition time_sleep (microseconds : N) : M unit :=
  fun w => (emit (EvSleep microseconds) w, Ret tt).

Definition print (message : text) : M unit :=
  fun w => (emit (EvPrint message) w, Ret tt).

(** [handle.write(...)]: [ValueError] on a closed file. *)
Definition file_write (handle : Z) (entry : debug_entry) : M unit :=
  fun w =>
    if mem handle (open_files w)
    then (emit (EvDebugWrite handle entry) w, Ret tt)
    else (w, Raise ValueError).

Definition file_flush (handle : Z) : M unit :=
  fun w =>
    if mem handle (open_files w)
    then (emit (EvDebugFlush handle) w, Ret tt)
    else (w, Raise ValueError).

(** [handle.close()]: nothing happens on a closed file. *)
Definition file_close (handle : Z) : M unit :=
  fun w =>
    if mem handle (open_files w)
    then (emit (EvDebugClose handle)
               (with_open_files (remove handle (open_files w)) w), Ret tt)
    else (w, Ret tt).

(** [termios.tcsetattr(sys.stdin, termios.TCSADRAIN, settings)] *)
Definition tcsetattr (settings : list Z) : M unit :=
  fun w =>
    if tty_ok w then (emit (EvTcsetattr settings true) w, Ret tt)
    else (emit (EvTcsetattr settings false) w, Raise TermiosError).

Definition http_shutdown (server : Z) : M unit :=
  fun w => (emit (EvHttpShutdown server) w, Ret tt).
Definition http_server_close (server : Z) : M unit :=
  fun w => (emit (EvHttpServerClose server) w, Ret tt).

(** [command.encode()] *)
Definition str_encode (t : text) : M (list byte) :=
  match encode t with
  | Some data => ret data
  | None => raise UnicodeEncodeError
  end.

(** Truth value of an [int] or [None] field, as in [if self.master_fd]. *)
Definition truthy_int (o : option Z) : bool :=
  match o with
  | Some n => negb (Z.eqb n 0)
  | None => false
  end.

(** Truth value of a [list] or [None] field. *)
Definition truthy_list {A} (o : option (list A)) : bool :=
  match o with
  | Some (_ :: _) => true
  | _ => false
  end.

(** [if self.debug_handle: ...]: a file object is true. *)
Definition if_debug (self : ClaudeWrapper) (c : Z -> M unit) : M unit :=
  match debug_handle self with
  | Some h => c h
  | None => ret tt
  end.

End Effects.

(* ===================================================================== *)
(** ** [ClaudeWrapper] and [StreamDeckHandler] of
       [src/wrapper/claude_deck_wrapper.py] *)
(* ===================================================================== *)

Module Wrapper.
Import Text Utf8 Effects.
Local Open Scope monad_scope.

(** [b'\r'] *)
Definition CR_DATA : list byte := [x0d].

(** [ClaudeWrapper.send_command] (lines 294-343).  [self.log] does
    nothing in this file. *)
Definition send_command (command : text) : M bool :=
  self <- get_self ;;
  match master_fd self with
  | Some fd =>
    if negb (Z.eqb fd 0) && running self then
      try_except
        (if_debug self (fun h => file_write h (DbgSendCommand command)) ;;
         (if startswith [ESC] command then
            data <- str_encode command ;;
            os_write fd data ;;
            if_debug self (fun h =>
              file_write h (DbgSentRaw data) ;; file_flush h)
          else if Text.eqb command [] then
            let data := CR_DATA in
            os_write fd data ;;
            if_debug self (fun h =>
              file_write h (DbgSentRaw data) ;; file_flush h)
          else
            cmd_data <- str_encode command ;;
            os_write fd cmd_data ;;
            if_debug self (fun h => file_write h (DbgSentRaw cmd_data)) ;;
            time_sleep 1000 ;;
            let cr_data := CR_DATA in
            os_write fd cr_data ;;
            if_debug self (fun h =>
              file_write h (DbgSentRawCR cr_data) ;; file_flush h)) ;;
         ret true)
        OSError
        (ret false)
    else ret false
  | None => ret false
  end.

(** [send_command] called with a value that is not a [str]: the guard
    and the debug line are as above, then [command.startswith] raises
    [AttributeError], which the [except OSError] clause lets through, as
    it does the [ValueError] of a closed debug file. *)
Definition send_command_not_str (command : json) : M bool :=
  self <- get_self ;;
  if truthy_int (master_fd self) && running self then
    try_except
      (if_debug self (fun h => file_write h (DbgSendCommandValue command)) ;;
       raise AttributeError)
      OSError
      (ret false)
  else ret false.

(** [ClaudeWrapper.cleanup] (lines 488-526). *)
Definition cleanup : M unit :=
  (fun w => (with_self (set_running false (self w)) w, Ret tt)) ;;
  self <- get_self ;;
  if_debug self (fun h =>
    try_except
      (file_write h DbgLogEnded ;; file_close h)
      Exception
      (print (cps "Error closing debug file"))) ;;
  when (truthy_list (original_settings self))
    (match original_settings self with
     | Some settings => try_except (tcsetattr settings) TermiosError (ret tt)
     | None => ret tt
     end) ;;
  match http_server self with
  | Some server => http_shutdown server ;; http_server_close server
  | None => ret tt
  end ;;
  when (truthy_int (master_fd self))
    (match master_fd self with
     | Some fd => os_close fd
     | None => ret tt
     end) ;;
  when (truthy_int (claude_pid self))
    (match claude_pid self with
     | Some pid =>
         try_except
           (os_kill pid 15 ;;
            time_sleep 500000 ;;
            try_except (os_kill pid 9) ProcessLookupError (ret tt))
           ProcessLookupError
           (ret tt)
     | None => ret tt
     end).

(** *** The HTTP handler *)

(** A request as the handler sees it: the path [urlparse] gives, and what
    [json.loads(post_data.decode())] returns or raises on the body. *)
Record request := mkRequest {
  path : text;
  loads : result json
}.

Record response := mkResponse {
  status_code : Z;
  headers : list (string * string);
  body : option json
}.

(** [send_response(code); end_headers()] *)
Definition plain (code : Z) : response := mkResponse code [] None.

(** The 200 answer with its two headers and a JSON body. *)
Definition json_200 (b : json) : response :=
  mkResponse 200
    [("Content-type", "application/json");
     ("Access-Control-Allow-Origin", "*")]%string
    (Some b).

Fixpoint assoc (key : text) (items : list (text * json)) : option json :=
  match items with
  | [] => None
  | (k, v) :: rest => if Text.eqb k key then Some v else assoc key rest
  end.

(** [data.get(key, default)]: [AttributeError] when [data] is not a
    [dict]. *)
Definition dict_get (data : json) (key : text) (default : json) : M json :=
  match data with
  | JObj items =>
      ret (match assoc key items with Some v => v | None => default end)
  | _ => raise AttributeError
  end.

Definition lift {A} (r : result A) : M A := fun w => (w, r).

(** The body of the 200 answer of [do_POST]. *)
Definition command_response (success : bool) (command : json) : json :=
  JObj [(cps "status", JStr (cps (if success then "sent" else "failed")));
        (cps "command", command)].

(** [StreamDeckHandler.do_POST] (lines 195-226). *)
Definition do_POST (req : request) : M response :=
  if Text.eqb (path req) (cps "/command") then
    try_except
      (data <- lift (loads req) ;;
       command <- dict_get data (cps "command") (JStr []) ;;
       match command with
       | JNull => ret (plain 400)                  (* [command is None] *)
       | _ =>
           success <- match command with
                      | JStr t => send_command t
                      | _ => send_command_not_str command
                      end ;;
           ret (json_200 (command_response success command))
       end)
      JSONDecodeError
      (ret (plain 400))
  else ret (plain 404).

End Wrapper.

(* ===================================================================== *)
(** ** The same two methods in the older [src/claude_deck_wrapper.py] *)
(* ===================================================================== *)

Module Simplified.
Import Text Utf8 Effects.
Local Open Scope monad_scope.

(** [ClaudeWrapper.log]: prints when [self.debug] is set. *)
Definition log (message : text) : M unit :=
  self <- get_self ;;
  when (debug self) (print (cps "[WRAPPER] " ++ message)).

(** [ClaudeWrapper.send_command] (lines 181-199). *)
Definition send_command (command : text) : M bool :=
  self <- get_self ;;
  match master_fd self with
  | Some fd =>
    if negb (Z.eqb fd 0) && running self then
      try_except
        (data <- str_encode command ;;
         os_write fd data ;;
         time_sleep 1000 ;;
         os_write fd Wrapper.CR_DATA ;;
         log (cps "Sent command") ;;
         ret true)
        OSError
        (log (cps "Failed to send command") ;; ret false)
    else ret false
  | None => ret false
  end.

Definition send_command_not_str : M bool :=
  self <- get_self ;;
  if truthy_int (master_fd self) && running self
  then raise AttributeError
  else ret false.

(** Truth value of a parsed JSON value, as in [if command:]. *)
Definition truthy (v : json) : bool :=
  match v with
  | JNull => false
  | JBool b => b
  | JNum z => negb (Z.eqb z 0)
  | JStr t => negb (Text.eqb t [])
  | JArr l => match l with [] => false | _ => true end
  | JObj items => match items with [] => false | _ => true end
  end.

(** [StreamDeckHandler.do_POST] (lines 97-128). *)
Definition do_POST (req : Wrapper.request) : M Wrapper.response :=
  if Text.eqb (Wrapper.path req) (cps "/command") then
    try_except
      (data <- Wrapper.lift (Wrapper.loads req) ;;
       command <- Wrapper.dict_get data (cps "command") (JStr []) ;;
       if truthy command then
         success <- match command with
                    | JStr t => send_command t
                    | _ => send_command_not_str
                    end ;;
         ret (Wrapper.json_200 (Wrapper.command_response success command))
       else ret (Wrapper.plain 400))
      JSONDecodeError
      (ret (Wrapper.plain 400))
  else ret (Wrapper.plain 404).

End Simplified.

(* ===================================================================== *)
(** ** Vocabulary of the statements *)
(* ===================================================================== *)

Module Design.
Import Text Utf8 Classifier.
Local Open Scope string_scope.

(** The mode values of the data model; "planning/plan" stands for the
    two spellings. *)
Definition MODES : list string :=
  ["unknown"; "startup"; "interactive"; "planning"; "plan"; "auto-accept";
   "confirmation"; "choice"; "thinking"; "error"; "exit-confirm"].

(** The priority table as the design describes it: an ordered list of
    rules, each a test on the chunk (and its lower-cased copy) with the
    assignment it makes. *)
Record rule := mkRule {
  rule_test : text -> text -> bool;
  rule_action : ClaudeState -> ClaudeState
}.

Definition RULES : list rule :=
  [ mkRule (fun t _ => contains AUTO_ACCEPT_ON t) (set_mode "auto-accept");
    mkRule (fun t _ => contains PLAN_MODE_ON t) (set_mode "plan");
    mkRule (fun t _ => contains (cps "? for shortcuts") t)
           (set_mode "interactive");
    mkRule (fun t _ => contains (cps "Press Ctrl-C again to exit") t)
           (set_mode "exit-confirm");
    mkRule (fun t _ => contains (cps "Welcome to Claude Code") t)
           (set_mode "startup");
    mkRule (fun _ l => any_in CONFIRM_PHRASES l) (set_mode "confirmation");
    mkRule (fun _ l => any_in CHOICE_PHRASES l) (set_mode "choice");
    mkRule (fun _ l => contains (cps "thinking") l
                       || contains (cps "processing") l)
           (set_mode "thinking");
    mkRule (fun _ l => contains (cps "error") l || contains (cps "failed") l)
           (set_mode "error");
    mkRule (fun t _ => contains (cps "Set model to opus") t)
           (set_model "opus");
    mkRule (fun t _ => contains (cps "Set model to Default") t
                       || contains (cps "Set model to sonnet") t)
           (set_model "sonnet");
    mkRule (fun t _ => contains (cps ">") t && negb (contains AUTO_GLYPHS t))
           (set_mode "interactive") ].

(** First match wins: the action of the first rule whose test passes,
    and nothing when none passes. *)
Fixpoint first_match (rules : list rule) (t l : text) (self : ClaudeState)
  : ClaudeState :=
  match rules with
  | [] => self
  | r :: rest =>
      if rule_test r t l then rule_action r self
      else first_match rest t l self
  end.

(** A lower-casing that is right on ASCII letters and leaves every other
    character alone; used where a statement needs a concrete function. *)
Definition ascii_lower (t : text) : text :=
  map (fun c => if ((65 <=? c) && (c <=? 90))%N then (c + 32)%N else c) t.

(** The UTF-8 bytes of a text without surrogates. *)
Definition utf8 (t : text) : list byte := map byte_of_N (encode_values t).

(** The buffer of the prompt example: ESC[32m foo> ESC[0m, a log line,
    and the prompt line with its trailing blank. *)
Definition EXAMPLE_BUFFER : text :=
  ([ESC] ++ cps "[32mfoo>" ++ [ESC] ++ cps "[0m" ++ [LF]
   ++ cps "[log]" ++ [LF] ++ cps "bar> ")%list.

(** A chunk seen as well-formed characters with stray bytes between
    them: a stray byte is one that can start no UTF-8 sequence. *)
Inductive piece :=
| Char (c : N)
| Stray (b : N).

Definition piece_ok (p : piece) : bool :=
  match p with
  | Char c => encodable c
  | Stray b => (((0x80 <=? b) && (b <? 0xC2)) || ((0xF5 <=? b) && (b <=? 0xFF)))%N
  end.

Definition piece_values (p : piece) : list N :=
  match p with
  | Char c => encode_cp c
  | Stray b => [b]
  end.

Definition piece_text (p : piece) : text :=
  match p with
  | Char c => [c]
  | Stray _ => []
  end.

(** *** Worlds and traces *)

(** The wrapper as [__init__] leaves it. *)
Definition fresh_wrapper : Effects.ClaudeWrapper :=
  Effects.mkClaudeWrapper None None None (init 0) 8080 false false None
                          None None None [].

(** The wrapper as [start_claude] leaves it in the parent: the master
    descriptor [fd], the child [pid], running. *)
Definition started_wrapper (fd pid : Z) : Effects.ClaudeWrapper :=
  Effects.mkClaudeWrapper (Some fd) (Some (fd + 1)%Z) (Some pid) (init 0) 8080
                          true false None None None None [].

(** A world around a wrapper: its open descriptors, the schedule of
    write failures and the processes; no file open, a terminal on stdin,
    nothing done yet. *)
Definition world_of (self : Effects.ClaudeWrapper) (fds : list Z)
    (faults : list bool) (procs : list Z) : Effects.World :=
  Effects.mkWorld self fds faults procs [] true [].

(** What a call added to the trace. *)
Definition new_events (w w' : Effects.World) : list Effects.event :=
  skipn (length (Effects.trace w)) (Effects.trace w').

Definition is_debug_event (e : Effects.event) : bool :=
  match e with
  | Effects.EvDebugWrite _ _ | Effects.EvDebugFlush _
  | Effects.EvDebugClose _ => true
  | _ => false
  end.

(** The events other than those of the debug log. *)
Definition io_events (evs : list Effects.event) : list Effects.event :=
  filter (fun e => negb (is_debug_event e)) evs.

(** The number of bytes the successful writes to [fd] carried. *)
Fixpoint bytes_written (fd : Z) (evs : list Effects.event) : nat :=
  match evs with
  | [] => 0
  | Effects.EvWrite fd' data true :: rest =>
      ((if Z.eqb fd' fd then length data else 0) + bytes_written fd rest)%nat
  | _ :: rest => bytes_written fd rest
  end.

(** The number of writes that raised. *)
Fixpoint failed_writes (evs : list Effects.event) : nat :=
  match evs with
  | [] => 0
  | Effects.EvWrite _ _ false :: rest => S (failed_writes rest)
  | _ :: rest => failed_writes rest
  end.

(** The three framing policies, in priority order: what is to be done
    on descriptor [fd] for [command], whose bytes are [data]. *)
Definition framing (fd : Z) (command : text) (data : list byte)
  : list Effects.event :=
  if startswith [ESC] command then [Effects.EvWrite fd data true]
  else if Text.eqb command [] then [Effects.EvWrite fd [x0d] true]
  else [Effects.EvWrite fd data true; Effects.EvSleep 1000;
        Effects.EvWrite fd [x0d] true].

(** No handle of the wrapper is set (in the sense of the tests of
    [cleanup]). *)
Definition holds_nothing (self : Effects.ClaudeWrapper) : bool :=
  match Effects.debug_handle self, Effects.http_server self with
  | None, None =>
      negb (Effects.truthy_list (Effects.original_settings self))
      && negb (Effects.truthy_int (Effects.master_fd self))
      && negb (Effects.truthy_int (Effects.claude_pid self))
  | _, _ => false
  end.

End Design.

(* ===================================================================== *)
(** ** [class ClaudeState] of the older [src/claude_deck_wrapper.py] *)
(* ===================================================================== *)

Module Older.
Import Text Utf8.
Local Open Scope string_scope.

Record ClaudeState := mkClaudeState {
  mode : string;
  current_prompt : text;
  buffer : text;
  last_update : Z
}.

(** [ClaudeState.__init__] *)
Definition init (now : Z) : ClaudeState :=
  {| mode := "unknown"; current_prompt := []; buffer := [];
     last_update := now |}.

Definition set_mode (m : string) (self : ClaudeState) : ClaudeState :=
  {| mode := m; current_prompt := current_prompt self;
     buffer := buffer self; last_update := last_update self |}.

Definition set_current_prompt (p : text) (self : ClaudeState) : ClaudeState :=
  {| mode := mode self; current_prompt := p;
     buffer := buffer self; last_update := last_update self |}.

Definition set_buffer (b : text) (self : ClaudeState) : ClaudeState :=
  {| mode := mode self; current_prompt := current_prompt self;
     buffer := b; last_update := last_update self |}.

Definition set_last_update (t : Z) (self : ClaudeState) : ClaudeState :=
  {| mode := mode self; current_prompt := current_prompt self;
     buffer := buffer self; last_update := t |}.

(** The literal [1000] of this [parse_output]. *)
Definition BUFFER_CAP : nat := 1000.

(** [clean_line and '>' in clean_line] *)
Definition is_prompt_line (clean_line : text) : bool :=
  negb (Text.eqb clean_line []) && contains (cps ">") clean_line.

Fixpoint scan_lines (reversed_lines : list text) (prompt : text) : text :=
  match reversed_lines with
  | [] => prompt
  | line :: rest =>
      let clean_line := strip line in
      if is_prompt_line clean_line then clean_line
      else scan_lines rest prompt
  end.

Section WithLower.

Variable lower : text -> text.

(** Lines 46-54. *)
Definition update_mode (text : text) (self : ClaudeState) : ClaudeState :=
  let lower_text := lower text in
  if contains (cps "planning mode") lower_text
     || contains (cps "/plan") lower_text
  then set_mode "planning" self
  else if contains (cps "auto-accept") lower_text
          || contains (cps "/auto") lower_text
  then set_mode "auto-accept" self
  else if contains (cps "welcome to claude code") lower_text
  then set_mode "interactive" self
  else if contains (cps ">") text then set_mode "interactive" self
  else self.

(** Lines 56-62: no escape sequence is removed here. *)
Definition extract_prompt (self : ClaudeState) : ClaudeState :=
  let lines := split LF (buffer self) in
  set_current_prompt (scan_lines (rev lines) (current_prompt self)) self.

(** [ClaudeState.parse_output] (lines 35-62). *)
Definition parse_output (now : Z) (self : ClaudeState) (data : list byte)
  : ClaudeState :=
  let text := decode Ignore data in
  let self := set_buffer (buffer self ++ text)%list self in
  let self := set_last_update now self in
  let self :=
    if (BUFFER_CAP <? length (buffer self))%nat
    then set_buffer (last_chars BUFFER_CAP (buffer self)) self
    else self in
  let self := update_mode text self in
  extract_prompt self.

Inductive reachable : ClaudeState -> Prop :=
| reach_init : forall now, reachable (init now)
| reach_parse : forall now self data,
    reachable self -> reachable (parse_output now self data).

End WithLower.

End Older.

(* ===================================================================== *)
(** ** [StreamDeckHandler.do_GET] of [src/wrapper/claude_deck_wrapper.py] *)
(* ===================================================================== *)

Module StateEndpoint.
Import Text Utf8 Effects Wrapper.
Local Open Scope monad_scope.

(** The dictionary of [_get_button_config], as [json.dumps] sees it. *)
Definition button_config_json (c : Classifier.ButtonConfig) : json :=
  JObj [(cps "shift_tab_icon", JStr (cps (Classifier.shift_tab_icon c)));
        (cps "shift_tab_label", JStr (cps (Classifier.shift_tab_label c)));
        (cps "shift_tab_enabled", JBool (Classifier.shift_tab_enabled c));
        (cps "context_hint", JStr (cps (Classifier.context_hint c)))].

(** The dictionary of [get_state], as [json.dumps] sees it. *)
Definition state_json (d : Classifier.StateDict) : json :=
  JObj [(cps "mode", JStr (cps (Classifier.sd_mode d)));
        (cps "model", JStr (cps (Classifier.sd_model d)));
        (cps "prompt", JStr (Classifier.sd_prompt d));
        (cps "last_update", JNum (Classifier.sd_last_update d));
        (cps "buffer_size", JNum (Z.of_nat (Classifier.sd_buffer_size d)));
        (cps "button_config",
         button_config_json (Classifier.sd_button_config d))].

(** [StreamDeckHandler.do_GET] (lines 179-193), on the path [urlparse]
    gives. *)
Definition do_GET (path : text) : M response :=
  if Text.eqb path (cps "/state") then
    self <- get_self ;;
    ret (json_200 (state_json (Classifier.get_state (state self))))
  else ret (plain 404).

End StateEndpoint.

(* ===================================================================== *)
(** ** More vocabulary *)
(* ===================================================================== *)

Module Notions.
Import Text Utf8 Classifier.
Local Open Scope string_scope.

(** The values [parse_output] of [src/wrapper] writes to [mode], with
    the initial one. *)
Definition WRITTEN_MODES : list string :=
  ["unknown"; "auto-accept"; "plan"; "interactive"; "exit-confirm";
   "startup"; "confirmation"; "choice"; "thinking"; "error"].

Definition MODELS : list string := ["unknown"; "opus"; "sonnet"].

(** The mode values of the older [parse_output]. *)
Definition OLDER_MODES : list string :=
  ["unknown"; "planning"; "auto-accept"; "interactive"].

(** All the text a sequence of chunks decodes to. *)
Definition decoded_all (chunks : list (Z * list byte)) : text :=
  concat (map (fun c => decode Ignore (snd c)) chunks).

(** Neither end of the text is white space. *)
Definition trimmed (t : text) : bool :=
  match t with
  | [] => true
  | c :: _ => negb (isspace c) && negb (isspace (last t c))
  end.

End Notions.

(* ===================================================================== *)
(** ** The I/O loop of [ClaudeWrapper.run] *)
(* ===================================================================== *)

Module Loop.
Import Text Utf8 Effects.

(** What the loop does besides the calls of [Effects]: writes to the
    terminal and to the debug log. *)
Inductive side_event :=
| OutWrite (data : list byte)             (* [sys.stdout.buffer.write] *)
| OutFlush                                (* [sys.stdout.buffer.flush] *)
| LogChunk (handle : Z) (from_child : bool) (data : list byte)
    (* the time-stamped lines written for one chunk, and the flush *)
| LogFailed.                              (* [print("Debug write error")] *)

Record LoopWorld := mkLoopWorld {
  base : World;
  side : list side_event
}.

(** What the operating system hands to one round of the loop. *)
Record round := mkRound {
  now : Z;                           (* [time.time()] in [parse_output] *)
  master_ready : bool;               (* [self.master_fd in ready] *)
  master_read : option (list byte);  (* [os.read(self.master_fd, 1024)];
                                        [None] for [OSError] *)
  stdin_ready : bool;                (* [sys.stdin in ready] *)
  stdin_read : option (list byte);   (* [os.read(stdin, 1024)] *)
  child_exited : option bool         (* [pid == self.claude_pid] after
                                        [os.waitpid], which has then reaped
                                        the child; [None] for [OSError] *)
}.

(** A round, or the interrupt that ends the program. *)
Inductive tick :=
| Round (r : round)
| KeyboardInterrupt.

(** How a statement of the loop body ends: it falls through, it reaches
    [break], or it raises an exception that no clause of the body
    catches. *)
Inductive flow := Continue | Break | Fail (e : exn).

Definition set_state (st : Classifier.ClaudeState) (self : ClaudeWrapper)
  : ClaudeWrapper :=
  {| master_fd := master_fd self; slave_fd := slave_fd self;
     claude_pid := claude_pid self; state := st; port := port self;
     running := running self; debug := debug self;
     debug_file := debug_file self; debug_handle := debug_handle self;
     http_server := http_server self;
     original_settings := original_settings self;
     claude_args := claude_args self |}.

Definition emit_side (evs : list side_event) (lw : LoopWorld) : LoopWorld :=
  mkLoopWorld (base lw) (side lw ++ evs).

(** [if self.debug_handle: try: ... except Exception: print(...)] around
    the lines written for a chunk. *)
Definition log_chunk (from_child : bool) (data : list byte) (lw : LoopWorld)
  : LoopWorld :=
  match debug_handle (self (base lw)) with
  | None => lw
  | Some h =>
      if mem h (open_files (base lw))
      then emit_side [LogChunk h from_child data] lw
      else emit_side [LogFailed] lw
  end.

Section WithLower.

Variable lower : text -> text.

(** [self.state.parse_output(data)] *)
Definition feed (t : Z) (data : list byte) (lw : LoopWorld) : LoopWorld :=
  let self := self (base lw) in
  mkLoopWorld
    (with_self (set_state (Classifier.parse_output lower t (state self) data)
                          self)
               (base lw))
    (side lw).

(** Lines 412-447: the child's output. *)
Definition child_output (r : round) (lw : LoopWorld) : LoopWorld * flow :=
  if master_ready r then
    match master_read r with
    | None => (lw, Break)
    | Some [] => (lw, Break)
    | Some data =>
        let lw := log_chunk true data lw in
        let lw := feed (now r) data lw in
        (emit_side [OutWrite data; OutFlush] lw, Continue)
    end
  else (lw, Continue).

(** Lines 449-472: the user's input, written to the master descriptor
    [fd]. *)
Definition user_input (fd : Z) (r : round) (lw : LoopWorld)
  : LoopWorld * flow :=
  if stdin_ready r then
    match stdin_read r with
    | None => (lw, Break)
    | Some [] => (lw, Continue)
    | Some data =>
        let lw := log_chunk false data lw in
        match os_write fd data (base lw) with
        | (w', Ret _) => (mkLoopWorld w' (side lw), Continue)
        | (w', Raise _) => (mkLoopWorld w' (side lw), Break)
        end
    end
  else (lw, Continue).

(** A child that [os.waitpid] has waited for is gone from the process
    table. *)
Definition reap (pid : Z) (lw : LoopWorld) : LoopWorld :=
  let w := base lw in
  mkLoopWorld
    (mkWorld (self w) (open_fds w) (write_faults w)
             (remove pid (processes w)) (open_files w) (tty_ok w) (trace w))
    (side lw).

(** Lines 474-481: is the child still there.  [os.waitpid(None, ...)]
    raises [TypeError], written [Exception] here, which the
    [except OSError] clause lets through. *)
Definition child_check (r : round) (lw : LoopWorld) : LoopWorld * flow :=
  match claude_pid (self (base lw)) with
  | None => (lw, Fail Exception)
  | Some pid =>
      match child_exited r with
      | Some true => (reap pid lw, Break)
      | _ => (lw, Continue)
      end
  end.

(** One pass of the body of [while self.running]. *)
Definition iteration (fd : Z) (r : round) (lw : LoopWorld)
  : LoopWorld * flow :=
  match child_output r lw with
  | (lw1, Continue) =>
      match user_input fd r lw1 with
      | (lw2, Continue) => child_check r lw2
      | (lw2, f) => (lw2, f)
      end
  | (lw1, f) => (lw1, f)
  end.

(** How the loop was left. *)
Inductive loop_end :=
| StillRunning          (* the ticks given are used up *)
| LeftLoop              (* [break], or [self.running] false *)
| Interrupted           (* [except KeyboardInterrupt] *)
| Escaped (e : exn).    (* an exception no clause catches *)

(** [while self.running: ...] (lines 408-481).  The interrupt is taken
    while the loop waits in [select].  With no master descriptor
    [select] is given [None] and raises [TypeError], written [Exception]
    here; with a master descriptor that is closed it raises [OSError];
    neither is caught in the loop. *)
Fixpoint io_loop (ticks : list tick) (lw : LoopWorld) : LoopWorld * loop_end :=
  if running (self (base lw)) then
    match ticks with
    | [] => (lw, StillRunning)
    | KeyboardInterrupt :: _ => (lw, Interrupted)
    | Round r :: rest =>
        match master_fd (self (base lw)) with
        | None => (lw, Escaped Exception)
        | Some fd =>
            if mem fd (open_fds (base lw)) then
              match iteration fd r lw with
              | (lw', Continue) => io_loop rest lw'
              | (lw', Break) => (lw', LeftLoop)
              | (lw', Fail e) => (lw', Escaped e)
              end
            else (lw, Escaped OSError)
        end
    end
  else (lw, LeftLoop).

(** [try: while ... except KeyboardInterrupt: ... finally: self.cleanup()]
    (lines 407-486): the result is [None] while the loop is still going,
    and otherwise what the statement ends with. *)
Definition run_loop (ticks : list tick) (lw : LoopWorld)
  : LoopWorld * option (result unit) :=
  match io_loop ticks lw with
  | (lw', StillRunning) => (lw', None)
  | (lw', ending) =>
      match Wrapper.cleanup (base lw') with
      | (w'', Raise e) => (mkLoopWorld w'' (side lw'), Some (Raise e))
      | (w'', Ret _) =>
          (mkLoopWorld w'' (side lw'),
           Some (match ending with
                 | Escaped e => Raise e
                 | _ => Ret tt
                 end))
      end
  end.

End WithLower.

End Loop.

(* ===================================================================== *)
(** ** The stand-in server of [src/tests/test_http_server.py] *)
(* ===================================================================== *)

Module TestServer.
Import Text Utf8 Effects Wrapper.

(** [class TestState]: [mode] and [prompt] never change. *)
Record TestState := mkTestState {
  commands_received : list json
}.

(** [TestState.get_state] as [json.dumps] sees it. *)
Definition get_state (st : TestState) : json :=
  JObj [(cps "mode", JStr (cps "test"));
        (cps "prompt", JStr (cps "test> "));
        (cps "commands_received", JArr (commands_received st))].

Definition get (data : json) (key : text) (default : json) : result json :=
  match data with
  | JObj items =>
      Ret (match assoc key items with Some v => v | None => default end)
  | _ => Raise AttributeError
  end.

(** [TestHandler.do_GET] *)
Definition do_GET (path : text) (st : TestState) : response :=
  if Text.eqb path (cps "/state") then json_200 (get_state st)
  else plain 404.

(** Whether [print(f"Received command: {command}")] (line 56) succeeds,
    standard output being UTF-8: a [str] with a lone surrogate cannot be
    encoded and [print] raises [UnicodeEncodeError]; a value of any other
    type is shown through [repr], which escapes what is in it. *)
Definition printable (command : json) : bool :=
  match command with
  | JStr t => forallb encodable t
  | _ => true
  end.

(** [TestHandler.do_POST]: the state after the call, what was printed,
    and the answer or the exception.  The command is printed before it
    is appended, and [except json.JSONDecodeError] does not catch what
    [print] raises. *)
Definition do_POST (req : request) (st : TestState)
  : TestState * list json * result response :=
  if Text.eqb (path req) (cps "/command") then
    match loads req with
    | Raise e =>
        if isinstance e JSONDecodeError then (st, [], Ret (plain 400))
        else (st, [], Raise e)
    | Ret data =>
        match get data (cps "command") (JStr []) with
        | Raise e => (st, [], Raise e)
        | Ret command =>
            if printable command then
              (mkTestState (commands_received st ++ [command]), [command],
               Ret (json_200 (JObj [(cps "status", JStr (cps "received"));
                                    (cps "command", command)])))
            else (st, [], Raise UnicodeEncodeError)
        end
    end
  else (st, [], Ret (plain 404)).

(** A sequence of POSTs, one after the other. *)
Definition post_all (reqs : list request) (st : TestState) : TestState :=
  fold_left (fun s req => fst (fst (do_POST req s))) reqs st.

End TestServer.

(* ===================================================================== *)
(** ** Vocabulary of the loop and of the older dispatcher *)
(* ===================================================================== *)

Module LoopNotions.
Import Text Utf8 Effects Loop.

(** The chunks written to the terminal, in order. *)
Fixpoint terminal_output (evs : list side_event) : list (list byte) :=
  match evs with
  | [] => []
  | OutWrite data :: rest => data :: terminal_output rest
  | _ :: rest => terminal_output rest
  end.

(** The chunks of the child's output that the rounds of a list of
    ticks have ready, with their clock readings. *)
Fixpoint offered_output (ticks : list tick) : list (Z * list byte) :=
  match ticks with
  | [] => []
  | Round r :: rest =>
      match master_ready r, master_read r with
      | true, Some data => (now r, data) :: offered_output rest
      | _, _ => offered_output rest
      end
  | KeyboardInterrupt :: rest => offered_output rest
  end.


(** The data of the writes among the events, failed ones included. *)
Fixpoint written_chunks (evs : list event) : list (list byte) :=
  match evs with
  | [] => []
  | EvWrite _ data _ :: rest => data :: written_chunks rest
  | _ :: rest => written_chunks rest
  end.

(** The writes and pauses among the events. *)
Definition wire_events (evs : list event) : list event :=
  filter (fun e => match e with
                   | EvWrite _ _ _ | EvSleep _ => true
                   | _ => false
                   end) evs.

(** The command a request carries for the stand-in server: the value
    under "command" of an object body posted to "/command", the empty
    string when the key is missing; nothing when that value is a string
    with a lone surrogate. *)
Definition carried (req : Wrapper.request) : list json :=
  if Text.eqb (Wrapper.path req) (cps "/command") then
    match Wrapper.loads req with
    | Ret (JObj items) =>
        let command := match Wrapper.assoc (cps "command") items with
                       | Some v => v
                       | None => JStr []
                       end in
        if TestServer.printable command then [command] else []
    | _ => []
    end
  else [].

End LoopNotions.

(* ===================================================================== *)
(** ** Vocabulary of decoding and of the repeated cleanup *)
(* ===================================================================== *)

Module DecodeNotions.
Import Text Utf8.

(** The byte values [s] begin with a well-formed sequence: the UTF-8
    bytes of a code point that can be encoded. *)
Definition starts_with_char (s : list N) : Prop :=
  exists c tail, encodable c = true /\ s = (encode_cp c ++ tail)%list.

(** Decoding that drops what is invalid: going through the bytes from
    the left, a well-formed sequence gives its character, and a byte at
    which no well-formed sequence starts gives nothing. *)
Inductive drops_invalid : list N -> text -> Prop :=
| di_nil : drops_invalid [] []
| di_char : forall c rest t,
    encodable c = true -> drops_invalid rest t ->
    drops_invalid (encode_cp c ++ rest) (c :: t)
| di_drop : forall b rest t,
    ~ starts_with_char (b :: rest) -> drops_invalid rest t ->
    drops_invalid (b :: rest) t.

End DecodeNotions.

Module CleanupNotions.
Import Text Effects.

(** The signals [cleanup] sends to a child [pid] in the world [w]. *)
Definition signals (pid : Z) (w : World) : list event :=
  if mem pid (processes w)
  then [EvKill pid 15 true; EvSleep 500000; EvKill pid 9 true]
  else [EvKill pid 15 false].

(** What a call of [cleanup] does when an earlier call has returned:
    the release step of every handle that is set, on resources that are
    released already.  The debug file is closed, so its step ends in the
    message of the [except] clause; the terminal settings are restored
    and the server is shut down and closed as before; [os.close] fails
    on the closed master descriptor, and that is where the call ends;
    with no master descriptor the child is signalled as before. *)
Definition release_again (w : World) : list event :=
  let self := self w in
  (match debug_handle self with
   | Some _ => [EvPrint (cps "Error closing debug file")]
   | None => []
   end ++
   match original_settings self with
   | Some (s :: l) => [EvTcsetattr (s :: l) (tty_ok w)]
   | _ => []
   end ++
   match http_server self with
   | Some server => [EvHttpShutdown server; EvHttpServerClose server]
   | None => []
   end ++
   match master_fd self with
   | Some fd =>
       if negb (Z.eqb fd 0) then [EvClose fd false]
       else match claude_pid self with
            | Some pid => if negb (Z.eqb pid 0) then signals pid w else []
            | None => []
            end
   | None =>
       match claude_pid self with
       | Some pid => if negb (Z.eqb pid 0) then signals pid w else []
       | None => []
       end
   end)%list.

End CleanupNotions.

(* ===================================================================== *)
(** ** Properties of the classifier *)
(* ===================================================================== *)

Module ClassifierFacts.
Import Text Utf8 Classifier Design.
Local Open Scope string_scope.

Section Facts.

Variable lower : text -> text.

(** *** The buffer *)

Lemma update_mode_buffer t self :
  buffer (update_mode lower t self) = buffer self.
Proof.
  unfold update_mode.
  repeat match goal with
         | |- context [if ?c then _ else _] => destruct c
         end; reflexivity.
Qed.

Lemma update_mode_current_prompt t self :
  current_prompt (update_mode lower t self) = current_prompt self.
Proof.
  unfold update_mode.
  repeat match goal with
         | |- context [if ?c then _ else _] => destruct c
         end; reflexivity.
Qed.

(** What [parse_output] leaves in the buffer. *)
Lemma parse_output_buffer now self data :
  buffer (parse_output lower now self data) =
  let b := (buffer self ++ decode Ignore data)%list in
  if (BUFFER_CAP <? length b)%nat then last_chars BUFFER_CAP b else b.
Proof.
  unfold parse_output, extract_prompt. cbn [buffer set_current_prompt].
  rewrite update_mode_buffer. cbn [buffer set_buffer set_last_update].
  destruct (BUFFER_CAP <? length (buffer self ++ decode Ignore data))%nat;
    reflexivity.
Qed.

Lemma last_chars_length n (s : text) :
  (n <= length s)%nat -> length (last_chars n s) = n.
Proof. intros H. unfold last_chars. rewrite length_skipn. lia. Qed.

Lemma parse_output_buffer_le now self data :
  (length (buffer (parse_output lower now self data)) <= BUFFER_CAP)%nat.
Proof.
  rewrite parse_output_buffer. cbv zeta.
  destruct (Nat.ltb_spec BUFFER_CAP
              (length (buffer self ++ decode Ignore data))) as [H | H].
  - rewrite last_chars_length; lia.
  - exact H.
Qed.

Lemma ingest_all_snoc self chunks c :
  ingest_all lower self (chunks ++ [c]) =
  parse_output lower (fst c) (ingest_all lower self chunks) (snd c).
Proof. unfold ingest_all. rewrite fold_left_app. reflexivity. Qed.

(** *** The mode *)

Lemma update_mode_first_match t self :
  update_mode lower t self = first_match RULES t (lower t) self.
Proof. reflexivity. Qed.

Lemma first_match_wins pre r post t l self :
  (forall r', In r' pre -> rule_test r' t l = false) ->
  rule_test r t l = true ->
  first_match (pre ++ r :: post) t l self = rule_action r self.
Proof.
  induction pre as [| r0 pre IH]; intros Hpre Hr; cbn.
  - rewrite Hr. reflexivity.
  - rewrite (Hpre r0 (or_introl eq_refl)).
    apply IH; [| exact Hr]. intros r' Hin. apply Hpre. right. exact Hin.
Qed.

Lemma first_match_none rules t l self :
  (forall r, In r rules -> rule_test r t l = false) ->
  first_match rules t l self = self.
Proof.
  induction rules as [| r rules IH]; intros H; cbn; [reflexivity |].
  rewrite (H r (or_introl eq_refl)). apply IH.
  intros r' Hr'. apply H. right. exact Hr'.
Qed.

Lemma parse_output_mode now self data :
  mode (parse_output lower now self data) =
  mode (update_mode lower (decode Ignore data) self).
Proof.
  unfold parse_output, extract_prompt. cbn [mode set_current_prompt].
  unfold update_mode.
  repeat match goal with
         | |- context [if ?c then _ else _] => destruct c
         end; reflexivity.
Qed.

Lemma parse_output_model now self data :
  model (parse_output lower now self data) =
  model (update_mode lower (decode Ignore data) self).
Proof.
  unfold parse_output, extract_prompt. cbn [model set_current_prompt].
  unfold update_mode.
  repeat match goal with
         | |- context [if ?c then _ else _] => destruct c
         end; reflexivity.
Qed.

Lemma update_mode_assigns t self :
  mode (update_mode lower t self) = mode self \/
  In (mode (update_mode lower t self)) MODES.
Proof.
  unfold update_mode.
  repeat match goal with
         | |- context [if ?c then _ else _] => destruct c
         end; cbn [mode set_mode set_model];
    solve [ left; reflexivity | right; cbv [MODES In]; tauto ].
Qed.

End Facts.

End ClassifierFacts.

(* ===================================================================== *)
(** ** Properties of the text operations *)
(* ===================================================================== *)

Module TextFacts.
Import Text Classifier.
Local Open Scope N_scope.

Lemma lstrip_suffix s : exists pre, s = pre ++ lstrip s.
Proof.
  induction s as [| c s IH]; cbn.
  - exists []. reflexivity.
  - destruct (isspace c).
    + destruct IH as [pre IH]. exists (c :: pre). cbn. rewrite <- IH.
      reflexivity.
    + exists []. reflexivity.
Qed.

Lemma strip_infix s : exists pre post, s = pre ++ strip s ++ post.
Proof.
  unfold strip, rstrip.
  destruct (lstrip_suffix s) as [pre Hpre].
  destruct (lstrip_suffix (rev (lstrip s))) as [q Hq].
  exists pre, (rev q).
  rewrite <- rev_app_distr, <- Hq, rev_involutive. exact Hpre.
Qed.

Lemma lstrip_app_nonspace a c b :
  isspace c = false -> lstrip (a ++ c :: b) = lstrip a ++ c :: b.
Proof.
  intros Hc. induction a as [| x a IH]; cbn.
  - rewrite Hc. reflexivity.
  - destruct (isspace x); [exact IH | reflexivity].
Qed.

Lemma strip_nil : strip [] = [].
Proof. reflexivity. Qed.

(** A line that starts with a character that is not white space keeps
    it under [strip]. *)
Lemma strip_keeps_first c s :
  isspace c = false -> exists s', strip (c :: s) = c :: s'.
Proof.
  intros Hc. unfold strip, rstrip. cbn [lstrip]. rewrite Hc.
  cbn [rev]. rewrite lstrip_app_nonspace by exact Hc.
  rewrite rev_app_distr. cbn. eexists. reflexivity.
Qed.

Lemma contains_single c s : contains [c] s = existsb (N.eqb c) s.
Proof.
  induction s as [| x s IH]; cbn.
  - reflexivity.
  - rewrite IH, andb_true_r. reflexivity.
Qed.

Lemma contains_single_infix c pre s post :
  contains [c] s = true -> contains [c] (pre ++ s ++ post) = true.
Proof.
  rewrite !contains_single, !existsb_app. intros ->.
  rewrite orb_true_r. reflexivity.
Qed.

Lemma eqb_nil_false (t : text) : Text.eqb t [] = false <-> t <> [].
Proof. destruct t; cbn; split; congruence. Qed.

(** A line whose stripped form passes the prompt test passes it
    unstripped too. *)
Lemma is_prompt_line_strip line :
  is_prompt_line (strip line) = true -> is_prompt_line line = true.
Proof.
  unfold is_prompt_line. change (cps ">") with [62]. change (cps "[") with [91].
  intros H. apply andb_prop in H. destruct H as [H Hb].
  apply andb_prop in H. destruct H as [Hne Hgt].
  destruct (strip_infix line) as [pre [post Hline]].
  assert (Hgt' : contains [62] line = true).
  { rewrite Hline. apply contains_single_infix. exact Hgt. }
  rewrite Hgt'.
  destruct line as [| c s].
  - rewrite strip_nil in Hne. discriminate.
  - cbn [Text.eqb negb andb]. cbn [startswith].
    destruct (N.eqb_spec 91 c) as [<- | Hc]; [| reflexivity].
    destruct (@strip_keeps_first 91 s eq_refl) as [s' Hs'].
    rewrite Hs' in Hb. cbn in Hb. discriminate.
Qed.

Lemma is_prompt_line_nonempty t : is_prompt_line t = true -> t <> [].
Proof. destruct t; [discriminate | congruence]. Qed.

(** *** The prompt loop *)


Lemma scan_lines_app skipped rest prompt :
  (forall l, In l skipped -> is_prompt_line (strip l) = false) ->
  scan_lines (skipped ++ rest) prompt = scan_lines rest prompt.
Proof.
  induction skipped as [| l ls IH]; intros H; cbn; [reflexivity |].
  rewrite (H l (or_introl eq_refl)). apply IH.
  intros l' Hl'. apply H. right. exact Hl'.
Qed.

Lemma scan_lines_none lines prompt :
  (forall l, In l lines -> is_prompt_line (strip l) = false) ->
  scan_lines lines prompt = prompt.
Proof.
  intros H. rewrite <- (app_nil_r lines). rewrite scan_lines_app by exact H.
  reflexivity.
Qed.

Lemma scan_lines_cases lines prompt :
  scan_lines lines prompt = prompt \/
  is_prompt_line (scan_lines lines prompt) = true.
Proof.
  induction lines as [| l ls IH]; cbn.
  - left. reflexivity.
  - destruct (is_prompt_line (strip l)) eqn:E; [right; exact E | exact IH].
Qed.

(** *** The ANSI pattern *)





(** Text without an escape character is left as it is. *)
Lemma re_sub_ansi_no_escape s :
  ~ In ESC s -> re_sub_ansi s = s.
Proof.
  unfold re_sub_ansi. induction s as [| c s IH]; intros H; [reflexivity |].
  cbn [re_sub_ansi_from].
  assert (Hm : ansi_match_len (c :: s) = None).
  { unfold ansi_match_len. destruct s as [| b s']; [reflexivity |].
    destruct (N.eqb_spec c ESC) as [-> | _]; [| reflexivity].
    exfalso. apply H. left. reflexivity. }
  rewrite Hm. f_equal. apply IH. intros Hin. apply H. right. exact Hin.
Qed.

End TextFacts.

(* ===================================================================== *)
(** ** The classifier: buffer bound, rule order, modes, prompt *)
(* ===================================================================== *)

Module ClassifierClaims.
Import Text Utf8 Classifier Design ClassifierFacts TextFacts.
Local Open Scope string_scope.

(** C1.  After every call of [parse_output], from any state and for any
    chunk, the buffer holds at most 2000 characters; so it does after
    each chunk of any sequence fed to a fresh classifier, and so does
    the [buffer_size] that [get_state] reports. *)
Theorem buffer_size_never_exceeds_capacity (lower : text -> text) :
  (forall now self data,
      (length (buffer (parse_output lower now self data)) <= 2000)%nat) /\
  (forall now0 chunks,
      let s := ingest_all lower (init now0) chunks in
      (length (buffer s) <= 2000)%nat /\
      (sd_buffer_size (get_state s) <= 2000)%nat).
Proof.
  assert (Hstep : forall now self data,
             (length (buffer (parse_output lower now self data)) <= 2000)%nat).
  { intros. apply parse_output_buffer_le. }
  split; [exact Hstep |].
  intros now0 chunks. cbv zeta. unfold get_state. cbn [sd_buffer_size].
  assert (H : (length (buffer (ingest_all lower (init now0) chunks))
               <= 2000)%nat).
  { induction chunks as [| c chunks IH] using rev_ind.
    - cbn. lia.
    - rewrite ingest_all_snoc. apply Hstep. }
  split; exact H.
Qed.

(** C2.  A chunk whose decoded text contains the auto-accept marker sets
    the mode to "auto-accept" and leaves the model alone, whatever else
    the chunk contains.  And for every chunk the chain is ordered,
    first match wins: what [parse_output] does to the mode and the model
    is what the first rule of the table whose test passes says, whether
    or not a later rule matches too; when no rule matches, both stay. *)
Theorem auto_accept_marker_wins (lower : text -> text) :
  (forall now self data,
      contains AUTO_ACCEPT_ON (decode Ignore data) = true ->
      mode (parse_output lower now self data) = "auto-accept" /\
      model (parse_output lower now self data) = model self) /\
  (forall now self data pre r post,
      RULES = (pre ++ r :: post)%list ->
      (forall r', In r' pre ->
                  rule_test r' (decode Ignore data)
                            (lower (decode Ignore data)) = false) ->
      rule_test r (decode Ignore data) (lower (decode Ignore data)) = true ->
      update_mode lower (decode Ignore data) self = rule_action r self /\
      mode (parse_output lower now self data) = mode (rule_action r self) /\
      model (parse_output lower now self data) = model (rule_action r self)) /\
  (forall now self data,
      (forall r, In r RULES ->
                 rule_test r (decode Ignore data)
                           (lower (decode Ignore data)) = false) ->
      mode (parse_output lower now self data) = mode self /\
      model (parse_output lower now self data) = model self).
Proof.
  split; [| split].
  - intros now self data H. rewrite parse_output_mode, parse_output_model.
    unfold update_mode. rewrite H. split; reflexivity.
  - intros now self data pre r post HR Hpre Hr.
    assert (E : update_mode lower (decode Ignore data) self
                = rule_action r self).
    { rewrite update_mode_first_match, HR.
      apply first_match_wins; assumption. }
    rewrite parse_output_mode, parse_output_model, E. auto.
  - intros now self data H.
    rewrite parse_output_mode, parse_output_model, update_mode_first_match.
    rewrite first_match_none by exact H. auto.
Qed.

(** The marker followed by a bare ">" in one chunk; and a chunk with
    "thinking" and ">", where the eighth rule is the first to match and
    the last one matches too. *)
Lemma auto_accept_marker_wins_witness :
  (let data := utf8 (AUTO_ACCEPT_ON ++ cps " >")%list in
   contains (cps ">") (decode Ignore data) = true /\
   mode (parse_output ascii_lower 0 (init 0) data) = "auto-accept") /\
  (let data := utf8 (cps "Thinking > ") in
   contains (cps ">") (decode Ignore data) = true /\
   mode (parse_output ascii_lower 0 (init 0) data) = "thinking").
Proof.
  cbv zeta. split; split.
  - vm_compute. reflexivity.
  - apply (proj1 (auto_accept_marker_wins ascii_lower) 0%Z (init 0)
             (utf8 (AUTO_ACCEPT_ON ++ cps " >")%list)).
    vm_compute. reflexivity.
  - vm_compute. reflexivity.
  - apply (proj1 (proj2
             (proj1 (proj2 (auto_accept_marker_wins ascii_lower)) 0%Z (init 0)
                (utf8 (cps "Thinking > "))
                (firstn 7 RULES) (nth 7 RULES (mkRule (fun _ _ => false) id))
                (skipn 8 RULES) eq_refl
                ltac:(vm_compute;
                      intros r' H;
                      repeat (destruct H as [<- | H]; [reflexivity |]);
                      destruct H)
                ltac:(vm_compute; reflexivity)))).
Defined.

(** C9.  The mode is "unknown" at construction, every call of
    [parse_output] either keeps the mode or writes a value of the
    enumeration, and so every reachable state has a mode of the
    enumeration. *)
Theorem mode_always_enumerated (lower : text -> text) :
  (forall now, mode (init now) = "unknown") /\
  (forall now self data,
      mode (parse_output lower now self data) = mode self \/
      In (mode (parse_output lower now self data)) MODES) /\
  (forall s, reachable lower s -> In (mode s) MODES).
Proof.
  assert (Hstep : forall now self data,
      mode (parse_output lower now self data) = mode self \/
      In (mode (parse_output lower now self data)) MODES).
  { intros. rewrite parse_output_mode. apply update_mode_assigns. }
  split; [reflexivity |]. split; [exact Hstep |].
  intros s Hs. induction Hs as [now | now self data Hs IH].
  - cbn. left. reflexivity.
  - destruct (Hstep now self data) as [E | Hin].
    + rewrite E. exact IH.
    + exact Hin.
Qed.

Lemma mode_always_enumerated_witness :
  In (mode (parse_output ascii_lower 1 (init 0) (utf8 (cps "Select one")))) MODES.
Proof.
  apply (proj2 (proj2 (mode_always_enumerated ascii_lower))).
  apply reach_parse. apply reach_init.
Defined.

(** What [parse_output] leaves as the prompt. *)
Lemma parse_output_current_prompt (lower : text -> text) now self data :
  current_prompt (parse_output lower now self data) =
  scan_lines
    (rev (split LF (re_sub_ansi (buffer (parse_output lower now self data)))))
    (current_prompt self).
Proof.
  unfold parse_output, extract_prompt.
  cbn [current_prompt buffer set_current_prompt].
  rewrite update_mode_current_prompt.
  destruct (BUFFER_CAP <? _)%nat; reflexivity.
Qed.

(** C10.  When no line of the stripped buffer passes the prompt test
    (whether the test is read on the lines as they are or on the lines
    with surrounding white space removed), the call leaves
    [current_prompt] as it was; a prompt once set is never set back to
    the empty string; and the prompt of a new classifier is empty. *)
Theorem prompt_kept_without_prompt_line
    (lower : text -> text) now self data :
  let s' := parse_output lower now self data in
  let lines := split LF (re_sub_ansi (buffer s')) in
  ((forall line, In line lines -> is_prompt_line line = false) \/
   (forall line, In line lines -> is_prompt_line (strip line) = false) ->
   current_prompt s' = current_prompt self) /\
  (current_prompt self <> [] -> current_prompt s' <> []) /\
  current_prompt (init now) = [].
Proof.
  cbv zeta. rewrite parse_output_current_prompt.
  set (lines := split LF (re_sub_ansi _)).
  repeat split.
  - intros H. apply scan_lines_none. intros l Hl. apply in_rev in Hl.
    destruct H as [H | H].
    + destruct (is_prompt_line (strip l)) eqn:E; [| reflexivity].
      apply is_prompt_line_strip in E. rewrite (H l Hl) in E. discriminate.
    + apply H. exact Hl.
  - intros Hne.
    destruct (scan_lines_cases (rev lines) (current_prompt self)) as [E | E].
    + rewrite E. exact Hne.
    + apply is_prompt_line_nonempty. exact E.
Qed.

(** A chunk of log lines only: the prompt "old>" stays. *)
Lemma prompt_kept_without_prompt_line_witness :
  let self := set_current_prompt (cps "old>") (init 0) in
  current_prompt
    (parse_output ascii_lower 1 self (utf8 (cps "[log] a > b" ++ [LF])%list))
  = cps "old>".
Proof.
  cbv zeta.
  apply (proj1 (prompt_kept_without_prompt_line ascii_lower 1
                  (set_current_prompt (cps "old>") (init 0))
                  (utf8 (cps "[log] a > b" ++ [LF])%list))).
  left. vm_compute. intros line [<- | [<- | []]]; reflexivity.
Defined.

End ClassifierClaims.

(* ===================================================================== *)
(** ** Decoding: what the [ignore] handler does *)
(* ===================================================================== *)

Module Utf8Facts.
Import Text Utf8 Classifier Design ClassifierFacts DecodeNotions.
Local Open Scope N_scope.

Ltac Zify.zify_post_hook ::= Z.to_euclidean_division_equations.

(** Settle the comparisons of the goal that arithmetic decides. *)
Ltac decide_cmp :=
  repeat match goal with
    | |- context [?a <? ?b] =>
        first [ rewrite (proj2 (N.ltb_lt a b)) by lia
              | rewrite (proj2 (N.ltb_ge a b)) by lia ]
    | |- context [?a <=? ?b] =>
        first [ rewrite (proj2 (N.leb_le a b)) by lia
              | rewrite (proj2 (N.leb_gt a b)) by lia ]
    | |- context [?a =? ?b] =>
        first [ rewrite (proj2 (N.eqb_eq a b)) by lia
              | rewrite (proj2 (N.eqb_neq a b)) by lia ]
    end.

Lemma encodable_range c :
  encodable c = true -> c < 0x110000 /\ (c < 0xD800 \/ 0xDFFF < c).
Proof.
  unfold encodable, is_surrogate. intros H.
  apply andb_prop in H. destruct H as [H1 H2].
  apply N.ltb_lt in H1. split; [exact H1 |].
  destruct (N.leb_spec 0xD800 c), (N.leb_spec c 0xDFFF);
    cbn in H2; try discriminate; lia.
Qed.

(** The decoder reads back what [encode_cp] writes, under either
    handler. *)
Lemma decode_values_encode_cp e c rest :
  encodable c = true ->
  decode_values e (encode_cp c ++ rest) = c :: decode_values e rest.
Proof.
  intros H. apply encodable_range in H. destruct H as [Hmax Hsur].
  unfold encode_cp.
  destruct (N.ltb_spec c 0x80) as [H1 | H1].
  { cbn [app decode_values]. decide_cmp. reflexivity. }
  destruct (N.ltb_spec c 0x800) as [H2 | H2].
  { cbn [app decode_values]. unfold is_continuation. decide_cmp.
    cbn [negb andb]. f_equal. lia. }
  destruct (N.ltb_spec c 0x10000) as [H3 | H3].
  { cbn [app decode_values]. unfold is_continuation. decide_cmp.
    cbn [negb andb orb].
    destruct (N.ltb_spec (0x80 + (c / 64) mod 64) 0xA0); decide_cmp;
      cbn [negb andb orb]; f_equal; lia. }
  cbn [app decode_values]. unfold is_continuation. decide_cmp.
  cbn [negb andb orb].
  destruct (N.ltb_spec (0x80 + (c / 4096) mod 64) 0x90); decide_cmp;
    cbn [negb andb orb]; f_equal; lia.
Qed.

(** A byte that can start no sequence is an error of its own, whatever
    follows it. *)
Lemma decode_values_stray e b rest :
  piece_ok (Stray b) = true ->
  decode_values e (b :: rest) = on_error e (decode_values e rest).
Proof.
  cbn [piece_ok]. intros H. apply orb_prop in H.
  destruct H as [H | H]; apply andb_prop in H; destruct H as [Ha Hb].
  - apply N.leb_le in Ha. apply N.ltb_lt in Hb.
    cbn [decode_values]. decide_cmp. reflexivity.
  - apply N.leb_le in Ha. apply N.leb_le in Hb.
    cbn [decode_values]. decide_cmp. reflexivity.
Qed.

Lemma decode_values_pieces ps rest :
  forallb piece_ok ps = true ->
  decode_values Ignore (flat_map piece_values ps ++ rest) =
  (flat_map piece_text ps ++ decode_values Ignore rest)%list.
Proof.
  induction ps as [| p ps IH]; intros H; [reflexivity |].
  cbn [forallb] in H. apply andb_prop in H. destruct H as [Hp Hps].
  cbn [flat_map]. rewrite <- !app_assoc.
  destruct p as [c | b].
  - cbn [piece_values piece_text]. rewrite decode_values_encode_cp by exact Hp.
    cbn [app]. f_equal. apply IH. exact Hps.
  - cbn [piece_values piece_text app].
    rewrite decode_values_stray by exact Hp. cbn [on_error].
    apply IH. exact Hps.
Qed.

(** Under [replace] each stray byte leaves a U+FFFD instead. *)
Lemma decode_values_pieces_replace ps rest :
  forallb piece_ok ps = true ->
  decode_values Replace (flat_map piece_values ps ++ rest) =
  (flat_map (fun p => match p with Char c => [c] | Stray _ => [0xFFFD] end) ps
   ++ decode_values Replace rest)%list.
Proof.
  induction ps as [| p ps IH]; intros H; [reflexivity |].
  cbn [forallb] in H. apply andb_prop in H. destruct H as [Hp Hps].
  cbn [flat_map]. rewrite <- !app_assoc.
  destruct p as [c | b].
  - cbn [piece_values]. rewrite decode_values_encode_cp by exact Hp.
    cbn [app]. f_equal. apply IH. exact Hps.
  - cbn [piece_values app].
    rewrite decode_values_stray by exact Hp. cbn [on_error].
    f_equal. apply IH. exact Hps.
Qed.

(** A continuation byte starts no sequence, and the decoder drops it. *)
Lemma continuation_dropped b rest :
  is_continuation b = true ->
  decode_values Ignore (b :: rest) = decode_values Ignore rest.
Proof.
  intros H. unfold is_continuation in H. apply andb_prop in H.
  destruct H as [Ha Hb]. apply N.leb_le in Ha. apply N.ltb_lt in Hb.
  cbn [decode_values]. decide_cmp. reflexivity.
Qed.

(** Turn the tests of the goal and of the hypotheses into arithmetic. *)
Ltac arith_tests :=
  unfold is_continuation in *;
  repeat match goal with
    | H : negb _ = true |- _ => apply negb_true_iff in H
    | H : negb _ = false |- _ => apply negb_false_iff in H
    | H : _ || _ = true |- _ => apply orb_prop in H; destruct H as [H | H]
    | H : _ || _ = false |- _ =>
        apply orb_false_elim in H; destruct H as [? ?]
    | H : _ && _ = true |- _ => apply andb_prop in H; destruct H as [? ?]
    | H : _ && _ = false |- _ =>
        apply andb_false_iff in H; destruct H as [H | H]
    | H : (_ <? _) = true |- _ => apply N.ltb_lt in H
    | H : (_ <? _) = false |- _ => apply N.ltb_ge in H
    | H : (_ <=? _) = true |- _ => apply N.leb_le in H
    | H : (_ <=? _) = false |- _ => apply N.leb_gt in H
    | H : (_ =? _) = true |- _ => apply N.eqb_eq in H
    | H : (_ =? _) = false |- _ => apply N.eqb_neq in H
    | H : (if ?c then _ else _) = _ |- _ => destruct c eqn:?
    end.

(** The bytes of a code point, by length: the ranges of Table 3-7 of
    the Unicode standard. *)
Lemma encode_cp_shape c :
  encodable c = true ->
  (c < 0x80 /\ encode_cp c = [c]) \/
  (exists b1 b2,
      encode_cp c = [b1; b2] /\
      0xC2 <= b1 < 0xE0 /\ 0x80 <= b2 < 0xC0) \/
  (exists b1 b2 b3,
      encode_cp c = [b1; b2; b3] /\
      0xE0 <= b1 < 0xF0 /\ 0x80 <= b2 < 0xC0 /\ 0x80 <= b3 < 0xC0 /\
      (b1 = 0xE0 -> 0xA0 <= b2) /\ (b1 = 0xED -> b2 < 0xA0)) \/
  (exists b1 b2 b3 b4,
      encode_cp c = [b1; b2; b3; b4] /\
      0xF0 <= b1 < 0xF5 /\ 0x80 <= b2 < 0xC0 /\ 0x80 <= b3 < 0xC0 /\
      0x80 <= b4 < 0xC0 /\
      (b1 = 0xF0 -> 0x90 <= b2) /\ (b1 = 0xF4 -> b2 < 0x90)).
Proof.
  intros H. apply encodable_range in H. destruct H as [Hmax Hsur].
  unfold encode_cp.
  destruct (N.ltb_spec c 0x80); [left; auto |].
  destruct (N.ltb_spec c 0x800).
  { right. left. do 2 eexists. split; [reflexivity |]. lia. }
  destruct (N.ltb_spec c 0x10000).
  { right. right. left. do 3 eexists. split; [reflexivity |]. lia. }
  right. right. right. do 4 eexists. split; [reflexivity |]. lia.
Qed.

(** No well-formed sequence starts here: whatever code point is tried,
    its bytes differ from the ones at hand. *)
Ltac no_char :=
  let c := fresh "c" in
  let tail := fresh "tail" in
  let Hc := fresh "Hc" in
  let Heq := fresh "Heq" in
  let E := fresh "E" in
  intros [c [tail [Hc Heq]]];
  destruct (encode_cp_shape c Hc)
    as [[? E] | [[? [? [E ?]]] | [[? [? [? [E ?]]]] | [? [? [? [? [E ?]]]]]]]];
  rewrite E in Heq; cbn [app] in Heq; try discriminate Heq;
  injection Heq; intros; subst; lia.

(** Here is one: the code point [c], whose bytes are the ones at hand. *)
Ltac this_char c tail :=
  exists c, tail;
  split;
  [ unfold encodable, is_surrogate;
    destruct (N.ltb_spec c 0x110000); [| lia];
    destruct (N.leb_spec 0xD800 c); destruct (N.leb_spec c 0xDFFF);
    cbn [andb negb]; try reflexivity; lia
  | unfold encode_cp; decide_cmp; cbn [app]; repeat f_equal; lia ].

(** At every position the decoder does one of two things: it reads the
    well-formed sequence that starts there, or, none starting there, it
    goes on as if the byte were not there. *)
Lemma decode_values_step b rest :
  starts_with_char (b :: rest) \/
  (~ starts_with_char (b :: rest) /\
   decode_values Ignore (b :: rest) = decode_values Ignore rest).
Proof.
  cbn [decode_values on_error].
  destruct (b <? 0x80) eqn:H1.
  { left. arith_tests. this_char b rest. }
  destruct (b <? 0xC2) eqn:H2.
  { right. arith_tests. split; [no_char | reflexivity]. }
  destruct (b <? 0xE0) eqn:H3.
  { destruct rest as [| b2 s2].
    - right. arith_tests. split; [no_char | reflexivity].
    - destruct (negb (is_continuation b2)) eqn:H4.
      + right. arith_tests; (split; [no_char | reflexivity]).
      + left. arith_tests.
        this_char (b * 64 + b2 - (0xC0 * 64 + 0x80)) s2. }
  destruct (b <? 0xF0) eqn:H4.
  { destruct rest as [| b2 s2].
    - right. arith_tests. split; [no_char | reflexivity].
    - destruct (negb (is_continuation b2)
                || (if b2 <? 0xA0 then b =? 0xE0 else b =? 0xED)) eqn:H5.
      + right. arith_tests; (split; [no_char | reflexivity]).
      + destruct s2 as [| b3 s3].
        * right. pose proof H5 as H5'. arith_tests.
          all: split; [no_char |];
            symmetry; apply (@continuation_dropped b2 []);
            unfold is_continuation; decide_cmp; reflexivity.
        * destruct (negb (is_continuation b3)) eqn:H6.
          -- right. arith_tests.
             all: split; [no_char |];
               symmetry; apply continuation_dropped;
               unfold is_continuation; decide_cmp; reflexivity.
          -- left. arith_tests.
             all: this_char (b * 4096 + b2 * 64 + b3
                             - (0xE0 * 4096 + 0x80 * 64 + 0x80)) s3. }
  destruct (b <? 0xF5) eqn:H5.
  { destruct rest as [| b2 s2].
    - right. arith_tests. split; [no_char | reflexivity].
    - destruct (negb (is_continuation b2)
                || (if b2 <? 0x90 then b =? 0xF0 else b =? 0xF4)) eqn:H6.
      + right. arith_tests; (split; [no_char | reflexivity]).
      + destruct s2 as [| b3 s3].
        * right. arith_tests.
          all: split; [no_char |];
            symmetry; apply (@continuation_dropped b2 []);
            unfold is_continuation; decide_cmp; reflexivity.
        * destruct (negb (is_continuation b3)) eqn:H7.
          -- right. arith_tests.
             all: split; [no_char |];
               symmetry; apply continuation_dropped;
               unfold is_continuation; decide_cmp; reflexivity.
          -- destruct s3 as [| b4 s4].
             ++ right. arith_tests.
                all: split; [no_char |];
                  symmetry;
                  rewrite (@continuation_dropped b2 [b3])
                    by (unfold is_continuation; decide_cmp; reflexivity);
                  apply (@continuation_dropped b3 []);
                  unfold is_continuation; decide_cmp; reflexivity.
             ++ destruct (negb (is_continuation b4)) eqn:H8.
                ** right. arith_tests.
                   all: split; [no_char |];
                     symmetry;
                     rewrite (@continuation_dropped b2 (b3 :: b4 :: s4))
                       by (unfold is_continuation; decide_cmp; reflexivity);
                     apply continuation_dropped;
                     unfold is_continuation; decide_cmp; reflexivity.
                ** left. arith_tests.
                   all: this_char
                     (b * 262144 + b2 * 4096 + b3 * 64 + b4
                      - (0xF0 * 262144 + 0x80 * 4096 + 0x80 * 64 + 0x80)) s4. }
  right. arith_tests. split; [no_char | reflexivity].
Qed.


Lemma encode_cp_nonempty c : encode_cp c <> [].
Proof.
  unfold encode_cp.
  destruct (c <? 0x80); [discriminate |].
  destruct (c <? 0x800); [discriminate |].
  destruct (c <? 0x10000); discriminate.
Qed.

(** The decoder under [ignore] drops what is invalid, on every input. *)
Lemma drops_invalid_decode s : drops_invalid s (decode_values Ignore s).
Proof.
  remember (length s) as n eqn:Hn. revert s Hn.
  induction n as [n IH] using lt_wf_ind. intros s Hn.
  destruct s as [| b rest]; [constructor |].
  destruct (decode_values_step b rest) as [[c [tail [Hc Heq]]] | [Hno Heq]].
  - rewrite Heq, decode_values_encode_cp by exact Hc.
    apply di_char; [exact Hc |].
    apply (IH (length tail)); [| reflexivity].
    subst n. rewrite Heq, length_app.
    pose proof (@encode_cp_nonempty c) as Hne.
    destruct (encode_cp c); [contradiction | cbn; lia].
  - rewrite Heq. apply di_drop; [exact Hno |].
    apply (IH (length rest)); [subst n; cbn; lia | reflexivity].
Qed.

(** And nothing else does: the text is determined by the bytes. *)
Lemma drops_invalid_unique s t :
  drops_invalid s t -> t = decode_values Ignore s.
Proof.
  induction 1 as [| c rest t Hc _ IH | b rest t Hno _ IH].
  - reflexivity.
  - rewrite decode_values_encode_cp by exact Hc. rewrite IH. reflexivity.
  - destruct (decode_values_step b rest) as [Hyes | [_ Heq]];
      [contradiction |].
    rewrite Heq. exact IH.
Qed.

(** C5, as the code has it.  [parse_output] is defined on every chunk,
    and what it appends is the chunk decoded with the [ignore] handler:
    going through the bytes, every well-formed sequence gives its
    character and every byte at which no well-formed sequence starts is
    dropped, nothing being put in its place; a stray byte, a sequence
    cut short and an ill-formed sequence all go this way.  The buffer is
    the old buffer and this text, cut to the last 2000 characters. *)
Theorem parse_output_appends_decoded_ignoring_invalid
    (lower : text -> text) now self data :
  drops_invalid (map Byte.to_N data) (decode Ignore data) /\
  (forall t,
      drops_invalid (map Byte.to_N data) t ->
      t = decode Ignore data /\
      buffer (parse_output lower now self data) =
        (let b := (buffer self ++ t)%list in
         if (2000 <? length b)%nat then last_chars 2000 b else b)) /\
  buffer (parse_output lower now self data) =
    (let b := (buffer self ++ decode Ignore data)%list in
     if (2000 <? length b)%nat then last_chars 2000 b else b) /\
  (forall ps,
      forallb piece_ok ps = true ->
      map Byte.to_N data = flat_map piece_values ps ->
      decode Ignore data = flat_map piece_text ps).
Proof.
  split; [apply drops_invalid_decode |]. split; [| split].
  - intros t Ht. apply drops_invalid_unique in Ht. fold (decode Ignore data) in Ht.
    subst t. split; [reflexivity | apply parse_output_buffer].
  - apply parse_output_buffer.
  - intros ps Hok Hdata. unfold decode. rewrite Hdata.
    rewrite <- (app_nil_r (flat_map piece_values ps)).
    rewrite decode_values_pieces by exact Hok.
    cbn [decode_values]. apply app_nil_r.
Qed.

(** "A", a stray 0xFF, then the two bytes of U+00E9; and the first two
    bytes of a three-byte sequence followed by "A". *)
Lemma parse_output_appends_decoded_ignoring_invalid_witness :
  decode Ignore [x41; xff; xc3; xa9] = [65; 233] /\
  [65] = decode Ignore [xe2; x82; x41].
Proof.
  split.
  - apply (proj2 (proj2 (proj2
             (parse_output_appends_decoded_ignoring_invalid
                ascii_lower 0 (init 0) [x41; xff; xc3; xa9])))
             [Char 65; Stray 255; Char 233]).
    + vm_compute. reflexivity.
    + vm_compute. reflexivity.
  - apply (proj1 (proj2
             (parse_output_appends_decoded_ignoring_invalid
                ascii_lower 0 (init 0) [xe2; x82; x41]))).
    change (map Byte.to_N [xe2; x82; x41]) with [226; 130; 65].
    apply di_drop; [no_char |].
    apply di_drop; [no_char |].
    apply (@di_char 65 [] []); [reflexivity | constructor].
Defined.

(** C5 as stated fails: on the chunk of the one byte 0xFF the [replace]
    handler would append U+FFFD, and [parse_output] appends nothing. *)
Lemma invalid_byte_is_not_replaced :
  decode Replace [xff] = [0xFFFD] /\
  buffer (parse_output ascii_lower 1 (init 0) [xff]) = [] /\
  buffer (parse_output ascii_lower 1 (init 0) [xff])
    <> (buffer (init 0) ++ decode Replace [xff])%list.
Proof.
  split; [reflexivity |]. split; [reflexivity |].
  vm_compute. discriminate.
Qed.

End Utf8Facts.

(* ===================================================================== *)
(** ** Facts about the dispatcher and the cleanup *)
(* ===================================================================== *)

Module EffectsFacts.
Import Text Utf8 Classifier Effects Wrapper Design CleanupNotions.

Lemma new_events_app w w' evs :
  trace w' = (trace w ++ evs)%list -> new_events w w' = evs.
Proof.
  intros H. unfold new_events. rewrite H.
  rewrite skipn_app, skipn_all, Nat.sub_diag. reflexivity.
Qed.

Lemma mem_remove x l : mem x (remove x l) = false.
Proof.
  unfold mem, remove. induction l as [| y l IH]; cbn; [reflexivity |].
  destruct (Z.eqb x y) eqn:E; cbn; [exact IH |].
  rewrite E. exact IH.
Qed.

Lemma failed_writes_app a b :
  failed_writes (a ++ b) = (failed_writes a + failed_writes b)%nat.
Proof.
  induction a as [| e a IH]; [reflexivity |].
  destruct e; cbn; try exact IH. destruct ok; cbn; rewrite IH; reflexivity.
Qed.

Lemma failed_writes_in fd data evs :
  In (EvWrite fd data false) evs -> (0 < failed_writes evs)%nat.
Proof.
  induction evs as [| e evs IH]; cbn; [tauto |].
  intros [-> | H]; [lia |].
  specialize (IH H). destruct e; try exact IH. destruct ok; lia.
Qed.

(** Unfold the methods and the calls down to the world record. *)
Ltac unfold_run :=
  cbv [send_command send_command_not_str cleanup do_POST dict_get lift
       bind ret raise try_except get_self when if_debug
       os_write os_close os_kill time_sleep print file_write file_flush
       file_close tcsetattr http_shutdown http_server_close str_encode
       emit with_self with_open_fds with_write_faults with_open_files
       set_running truthy_int truthy_list
       self open_fds write_faults processes open_files tty_ok trace
       master_fd claude_pid running debug_handle http_server
       original_settings fst snd isinstance].

(** Follow every branch, using the hypotheses that settle one. *)
Ltac crunch :=
  repeat (cbv beta iota zeta;
    match goal with
    | H : ?c = _ |- context [if ?c then _ else _] => rewrite H
    | H : ?x = _ |- context [match ?x with Some _ => _ | None => _ end] =>
        rewrite H
    | |- context [if ?c then _ else _] => destruct c eqn:?
    | |- context [match ?x with Some _ => _ | None => _ end] =>
        destruct x eqn:?
    | |- context [match ?x with [] => _ | _ :: _ => _ end] =>
        destruct x eqn:?
    end).

Ltac open_world w :=
  let s := fresh "s" in
  destruct w as [s ? ? ? ? ? ?]; destruct s.

(** *** [send_command] *)

(** Every call adds events to the trace; either no write in them
    failed, or exactly one did, it is the last event, and the call
    returned [False]. *)
Lemma send_command_shape command w :
  exists evs,
    trace (fst (send_command command w)) = (trace w ++ evs)%list /\
    (failed_writes evs = 0%nat \/
     (snd (send_command command w) = Ret false /\
      exists before fd data,
        evs = (before ++ [EvWrite fd data false])%list /\
        failed_writes before = 0%nat)).
Proof.
  open_world w. unfold_run. crunch;
    repeat rewrite <- app_assoc; cbn [app];
    eexists;
    (split; [first [reflexivity | symmetry; apply app_nil_r] |]);
    cbn [failed_writes];
    first [ left; reflexivity | right; split; [reflexivity |] ].
  all: first [ exists []; do 2 eexists; split; reflexivity
             | eexists [_]; do 2 eexists; split; reflexivity
             | eexists [_; _]; do 2 eexists; split; reflexivity
             | eexists [_; _; _]; do 2 eexists; split; reflexivity
             | eexists [_; _; _; _]; do 2 eexists; split; reflexivity
             | eexists [_; _; _; _; _]; do 2 eexists; split; reflexivity ].
Qed.

Lemma do_POST_command items command b w :
  assoc (cps "command") items = Some (JStr command) ->
  snd (send_command command w) = Ret b ->
  do_POST (mkRequest (cps "/command") (Ret (JObj items))) w =
  (fst (send_command command w),
   Ret (json_200 (command_response b (JStr command)))).
Proof.
  intros Hget Hsend. unfold do_POST. cbn [path loads].
  change (Text.eqb (cps "/command") (cps "/command")) with true. cbv iota.
  unfold try_except, bind, lift, dict_get, ret. rewrite Hget.
  destruct (send_command command w) as [w' r]. cbn [fst snd] in *.
  subst r. reflexivity.
Qed.

Lemma encode_values_ascii command :
  forallb (fun c => c <? 128)%N command = true ->
  encode_values command = command.
Proof.
  unfold encode_values.
  induction command as [| c t IH]; intros H; [reflexivity |].
  cbn [forallb] in H. apply andb_prop in H. destruct H as [Hc Ht].
  cbn [flat_map]. unfold encode_cp at 1. change 0x80%N with 128%N.
  rewrite Hc. cbn [app]. rewrite (IH Ht). reflexivity.
Qed.

Lemma encode_ascii_length command data :
  forallb (fun c => c <? 128)%N command = true ->
  encode command = Some data -> length data = length command.
Proof.
  intros Ha. unfold encode. destruct (forallb encodable command); [| discriminate].
  intros [= <-]. rewrite length_map, (encode_values_ascii _ Ha). reflexivity.
Qed.

(** With the wrapper running on an open descriptor, no write failing
    and the debug file (if any) open, the call does what the framing
    policy says and returns [True]. *)
Lemma send_command_ok command data w fd :
  master_fd (self w) = Some fd -> fd <> 0%Z -> running (self w) = true ->
  mem fd (open_fds w) = true ->
  forallb negb (write_faults w) = true ->
  (forall h, debug_handle (self w) = Some h -> mem h (open_files w) = true) ->
  encode command = Some data ->
  exists evs,
    trace (fst (send_command command w)) = (trace w ++ evs)%list /\
    snd (send_command command w) = Ret true /\
    io_events evs = framing fd command data /\
    bytes_written fd evs =
      if startswith [ESC] command then length data
      else if Text.eqb command [] then 1%nat
      else (length data + 1)%nat.
Proof.
  open_world w. cbn [self master_fd running open_fds write_faults
                     debug_handle open_files].
  intros -> Hfd -> Hopen Hfaults Hdebug Henc.
  apply Z.eqb_neq in Hfd.
  assert (Hfaults2 : match write_faults0 with
                     | [] => True
                     | true :: _ => False
                     | false :: [] => True
                     | false :: true :: _ => False
                     | false :: false :: _ => True
                     end).
  { destruct write_faults0 as [| [] [| [] ?]]; cbn in Hfaults;
      try discriminate; exact I. }
  destruct debug_handle0 as [h |]; [specialize (Hdebug h eq_refl) |].
  all: unfold framing, send_command; unfold_run; rewrite Hfd; cbn [negb andb];
    crunch; try contradiction;
    repeat rewrite <- app_assoc; cbn [app];
    eexists; (split; [reflexivity |]); (split; [reflexivity |]);
    cbn [io_events filter is_debug_event negb bytes_written];
    rewrite ?Z.eqb_refl; (split; [reflexivity |]);
    unfold CR_DATA; cbn [length]; lia.
Qed.

(** *** [cleanup] *)

Lemma cleanup_self w :
  self (fst (cleanup w)) = set_running false (self w).
Proof. open_world w. unfold_run. crunch; reflexivity. Qed.

Lemma cleanup_holds_nothing w :
  holds_nothing (self w) = true ->
  cleanup w = (with_self (set_running false (self w)) w, Ret tt).
Proof.
  open_world w. unfold holds_nothing.
  cbn [self debug_handle http_server original_settings master_fd claude_pid].
  destruct debug_handle0; [discriminate |].
  destruct http_server0; [discriminate |].
  intros H. apply andb_prop in H. destruct H as [H Hpid].
  apply andb_prop in H. destruct H as [Hset Hfd].
  apply negb_true_iff in Hpid, Hset, Hfd.
  destruct original_settings0 as [[| ? ?] |]; try discriminate Hset;
    destruct master_fd0 as [fd |], claude_pid0 as [pid |];
    cbn [truthy_int] in Hfd, Hpid;
    try apply negb_false_iff in Hfd; try apply negb_false_iff in Hpid;
    unfold_run; rewrite ?Hfd, ?Hpid; cbn [negb]; crunch; reflexivity.
Qed.

Lemma cleanup_closes_master w fd :
  master_fd (self w) = Some fd -> fd <> 0%Z -> snd (cleanup w) = Ret tt ->
  mem fd (open_fds (fst (cleanup w))) = false.
Proof.
  open_world w. cbn [self master_fd]. intros -> Hfd. apply Z.eqb_neq in Hfd.
  unfold_run. rewrite Hfd. cbn [negb].
  crunch; intros H; first [discriminate H | apply mem_remove].
Qed.

Lemma cleanup_on_closed_master w fd :
  master_fd (self w) = Some fd -> fd <> 0%Z ->
  mem fd (open_fds w) = false ->
  snd (cleanup w) = Raise OSError.
Proof.
  open_world w. cbn [self master_fd open_fds].
  intros -> Hfd Hclosed. apply Z.eqb_neq in Hfd.
  unfold_run. rewrite Hfd. cbn [negb].
  crunch; reflexivity.
Qed.

(** [cleanup] on a world whose debug file and master descriptor are
    closed already. *)
Lemma cleanup_on_released v :
  (forall h, debug_handle (self v) = Some h -> mem h (open_files v) = false) ->
  (forall fd, master_fd (self v) = Some fd -> fd <> 0%Z ->
              mem fd (open_fds v) = false) ->
  trace (fst (cleanup v)) = (trace v ++ release_again v)%list /\
  snd (cleanup v) = if truthy_int (master_fd (self v)) then Raise OSError
                    else Ret tt.
Proof.
  open_world v. cbn [self debug_handle open_files master_fd open_fds].
  intros Hh Hfd. unfold release_again, signals.
  cbn [self debug_handle original_settings http_server master_fd claude_pid
       tty_ok processes].
  destruct debug_handle0 as [h |]; [specialize (Hh h eq_refl) |];
    (destruct master_fd0 as [fd |];
     [destruct (Z.eqb fd 0) eqn:Hz;
      [| assert (Hc : mem fd open_fds0 = false)
           by (apply (Hfd fd eq_refl); apply Z.eqb_neq; exact Hz)] |]);
    unfold_run; rewrite ?Hz; cbn [negb];
    crunch; try discriminate; repeat rewrite <- app_assoc; cbn [app];
    split; first [reflexivity | symmetry; apply app_nil_r].
Qed.


(** What [cleanup] leaves of the world. *)
Lemma cleanup_leaves w :
  tty_ok (fst (cleanup w)) = tty_ok w /\
  processes (fst (cleanup w)) = processes w /\
  (forall h, debug_handle (self w) = Some h ->
             mem h (open_files (fst (cleanup w))) = false).
Proof.
  open_world w. cbn [self debug_handle].
  unfold_run. crunch; cbn [tty_ok processes open_files];
    (split; [reflexivity |]); (split; [reflexivity |]);
    intros h' [= <-]; first [assumption | apply mem_remove | discriminate].
Qed.

Lemma release_again_after w :
  release_again (fst (cleanup w)) = release_again w.
Proof.
  destruct (cleanup_leaves w) as [Ht [Hp _]].
  unfold release_again, signals. rewrite cleanup_self, Ht, Hp.
  destruct (self w). reflexivity.
Qed.

(** [send_command] raises nothing but what a closed debug file or an
    unencodable command raises. *)
Lemma send_command_raises command w e :
  snd (send_command command w) = Raise e ->
  e = ValueError \/ e = UnicodeEncodeError.
Proof.
  open_world w. unfold_run.
  crunch; intros H; first [discriminate H | injection H as <-; auto].
Qed.

End EffectsFacts.

(* ===================================================================== *)
(** ** The dispatcher, the control surface and the cleanup *)
(* ===================================================================== *)

Module EffectsClaims.
Import Text Utf8 Classifier Effects Wrapper Design EffectsFacts.
Import CleanupNotions.

(** C6, as the code has it.  On a running wrapper whose master
    descriptor is open, with no write failing: a command that starts
    with ESC is written as it is, with no carriage return; the empty
    command writes the one byte CR; any other command writes its bytes,
    sleeps 1 ms and writes one CR.  The bytes of a command are its UTF-8
    encoding, so the total is [len(command.encode()) + 1], which is
    [len(command) + 1] for an ASCII command. *)
Theorem send_command_frames_by_policy command data w fd :
  master_fd (self w) = Some fd -> fd <> 0%Z -> running (self w) = true ->
  mem fd (open_fds w) = true ->
  forallb negb (write_faults w) = true ->
  (forall h, debug_handle (self w) = Some h -> mem h (open_files w) = true) ->
  encode command = Some data ->
  let evs := new_events w (fst (send_command command w)) in
  snd (send_command command w) = Ret true /\
  io_events evs = framing fd command data /\
  bytes_written fd evs =
    (if startswith [ESC] command then length data
     else if Text.eqb command [] then 1%nat
     else (length data + 1)%nat) /\
  (forallb (fun c => c <? 128)%N command = true ->
   length data = length command).
Proof.
  intros Hfd Hnz Hrun Hopen Hfaults Hdebug Henc. cbv zeta.
  destruct (@send_command_ok command data w fd
              Hfd Hnz Hrun Hopen Hfaults Hdebug Henc)
    as [evs [Htr [Hret [Hio Hbytes]]]].
  rewrite (@new_events_app _ _ _ Htr).
  repeat split; try assumption.
  intros Hascii. apply (@encode_ascii_length _ _ Hascii Henc).
Qed.

(** "help" on descriptor 3: four bytes, the pause, one CR. *)
Lemma send_command_frames_by_policy_witness :
  let w := world_of (started_wrapper 3 100) [3%Z] [] [100%Z] in
  io_events (new_events w (fst (send_command (cps "help") w)))
  = [EvWrite 3 (utf8 (cps "help")) true; EvSleep 1000;
     EvWrite 3 [x0d] true].
Proof.
  cbv zeta.
  apply (proj1 (proj2
    (@send_command_frames_by_policy (cps "help") (utf8 (cps "help"))
       (world_of (started_wrapper 3 100) [3%Z] [] [100%Z]) 3%Z
       eq_refl ltac:(discriminate) eq_refl eq_refl eq_refl
       ltac:(intros h H; discriminate H) eq_refl))).
Defined.

(** C6 as stated fails on a command that is not ASCII: the one
    character U+00E9 is written as two bytes, three with the CR, and
    [len(command) + 1] is two. *)
Lemma non_ascii_command_byte_count :
  let w := world_of (started_wrapper 3 100) [3%Z] [] [100%Z] in
  let command := [0xE9%N] in
  snd (send_command command w) = Ret true /\
  bytes_written 3 (new_events w (fst (send_command command w))) = 3%nat /\
  bytes_written 3 (new_events w (fst (send_command command w)))
    <> (length command + 1)%nat.
Proof.
  cbv zeta. split; [reflexivity |]. split; [reflexivity |].
  vm_compute. discriminate.
Qed.

(** C8.  When a write of the call fails, [send_command] returns [False]
    (it does not raise), the failed write is the last thing the call
    does and the only failed one (nothing is tried again), and
    [do_POST] answers with the status "failed". *)
Theorem write_failure_is_reported command w fd data :
  In (EvWrite fd data false) (new_events w (fst (send_command command w))) ->
  snd (send_command command w) = Ret false /\
  last (new_events w (fst (send_command command w))) (EvSleep 0)
    = EvWrite fd data false /\
  failed_writes (new_events w (fst (send_command command w))) = 1%nat /\
  (forall items,
      assoc (cps "command") items = Some (JStr command) ->
      snd (do_POST (mkRequest (cps "/command") (Ret (JObj items))) w)
      = Ret (json_200 (JObj [(cps "status", JStr (cps "failed"));
                             (cps "command", JStr command)]))).
Proof.
  destruct (send_command_shape command w) as [evs [Htr Hcase]].
  rewrite (@new_events_app _ _ _ Htr). intros Hin.
  destruct Hcase as [H0 | [Hret [before [fd' [data' [Hevs Hb]]]]]].
  - apply failed_writes_in in Hin. lia.
  - subst evs. apply in_app_or in Hin.
    destruct Hin as [Hin | [Heq | []]].
    + apply failed_writes_in in Hin. lia.
    + injection Heq as -> ->.
      split; [exact Hret |]. split; [apply last_last |].
      split; [rewrite failed_writes_app, Hb; reflexivity |].
      intros items Hget. rewrite (@do_POST_command _ _ _ w Hget Hret).
      reflexivity.
Qed.

(** "help" when the first write fails. *)
Lemma write_failure_is_reported_witness :
  let w := world_of (started_wrapper 3 100) [3%Z] [true] [100%Z] in
  snd (send_command (cps "help") w) = Ret false /\
  snd (do_POST (mkRequest (cps "/command")
                  (Ret (JObj [(cps "command", JStr (cps "help"))]))) w)
  = Ret (json_200 (JObj [(cps "status", JStr (cps "failed"));
                         (cps "command", JStr (cps "help"))])).
Proof.
  cbv zeta.
  pose proof (@write_failure_is_reported (cps "help")
                (world_of (started_wrapper 3 100) [3%Z] [true] [100%Z])
                3%Z (utf8 (cps "help"))
                ltac:(vm_compute; left; reflexivity)) as H.
  split; [exact (proj1 H) |].
  apply (proj2 (proj2 (proj2 H))). reflexivity.
Defined.

(** C4, on the handler of [src/wrapper]: the body [{}] is never
    answered with 400; on a running wrapper it is answered with 200 and
    "sent", and a carriage return is written to the child. *)
Theorem missing_command_is_dispatched :
  (forall w,
      snd (do_POST (mkRequest (cps "/command") (Ret (JObj []))) w)
      <> Ret (plain 400)) /\
  (let w := world_of (started_wrapper 3 100) [3%Z] [] [100%Z] in
   do_POST (mkRequest (cps "/command") (Ret (JObj []))) w =
   (emit (EvWrite 3 [x0d] true) w,
    Ret (json_200 (JObj [(cps "status", JStr (cps "sent"));
                         (cps "command", JStr [])])))).
Proof.
  split; [| reflexivity].
  intros w. unfold do_POST. cbn [path loads].
  change (Text.eqb (cps "/command") (cps "/command")) with true. cbv iota.
  unfold try_except, bind, lift, dict_get, ret. cbn [assoc].
  destruct (send_command [] w) as [w' [b | e]] eqn:E.
  - cbn. discriminate.
  - assert (He : snd (send_command [] w) = Raise e) by (rewrite E; reflexivity).
    apply send_command_raises in He.
    destruct He as [-> | ->]; cbn; discriminate.
Qed.

(** The handler of the older file answers the same body with 400 and
    touches nothing. *)
Lemma simplified_missing_command_is_rejected items w :
  assoc (cps "command") items = None ->
  Simplified.do_POST (mkRequest (cps "/command") (Ret (JObj items))) w
  = (w, Ret (plain 400)).
Proof.
  intros H. unfold Simplified.do_POST. cbn [path loads].
  change (Text.eqb (cps "/command") (cps "/command")) with true. cbv iota.
  unfold try_except, bind, lift, dict_get, ret. rewrite H. reflexivity.
Qed.

(** A second call after a first that returned, with a master
    descriptor set: [os.close] is given a closed descriptor. *)
Lemma cleanup_again_raises_on_closed_master w fd :
  master_fd (self w) = Some fd -> fd <> 0%Z ->
  snd (cleanup w) = Ret tt ->
  snd (cleanup (fst (cleanup w))) = Raise OSError.
Proof.
  intros Hfd Hnz Hret.
  apply (@cleanup_on_closed_master (fst (cleanup w)) fd).
  - rewrite cleanup_self. destruct (self w). exact Hfd.
  - exact Hnz.
  - apply cleanup_closes_master; assumption.
Qed.

(** C3, as the code has it.  [cleanup] sets [running] to false and
    resets no handle, so a call that follows one that returned runs the
    release step of every handle that is set once more, on resources
    that are released already: the debug file is closed, and the step
    ends in the message of its [except] clause; the terminal settings
    are restored again; the server is shut down and closed again;
    [os.close] fails on the closed master descriptor, and the call ends
    there with [OSError]; with no master descriptor the child is
    signalled again.  Only when no handle is set does the second call
    add no effect and no error. *)
Theorem cleanup_second_call w :
  let w1 := fst (cleanup w) in
  let w2 := fst (cleanup w1) in
  self w1 = set_running false (self w) /\
  self w2 = self w1 /\
  (snd (cleanup w) = Ret tt ->
   new_events w1 w2 = release_again w /\
   snd (cleanup w1) = if truthy_int (master_fd (self w)) then Raise OSError
                      else Ret tt) /\
  (holds_nothing (self w) = true ->
   snd (cleanup w) = Ret tt /\ snd (cleanup w1) = Ret tt /\
   new_events w w1 = [] /\ new_events w1 w2 = []).
Proof.
  cbv zeta. split; [apply cleanup_self |]. split.
  { rewrite !cleanup_self. destruct (self w). reflexivity. }
  split.
  - intros Hret.
    destruct (cleanup_leaves w) as [_ [_ Hfile]].
    destruct (@cleanup_on_released (fst (cleanup w))) as [Htr Hres].
    + intros h Hh. apply Hfile. rewrite cleanup_self in Hh.
      destruct (self w). exact Hh.
    + intros fd Hfd Hnz. apply cleanup_closes_master; [| exact Hnz | exact Hret].
      rewrite cleanup_self in Hfd. destruct (self w). exact Hfd.
    + split.
      * rewrite (@new_events_app _ _ _ Htr). apply release_again_after.
      * rewrite Hres, cleanup_self. destruct (self w). reflexivity.
  - intros H.
    assert (H1 : holds_nothing (self (fst (cleanup w))) = true).
    { rewrite cleanup_self. destruct (self w). exact H. }
    rewrite (@cleanup_holds_nothing _ H1).
    rewrite (@cleanup_holds_nothing _ H). cbn [fst snd].
    repeat split; apply new_events_app; symmetry; apply app_nil_r.
Qed.

(** A wrapper with every handle set: the second call prints the
    message, restores the settings, shuts the server down and fails on
    the descriptor; and a wrapper that never started. *)
Lemma cleanup_second_call_witness :
  (let w := mkWorld
              (mkClaudeWrapper (Some 3%Z) (Some 4%Z) (Some 100%Z)
                 (Classifier.init 0) 8080 true false None (Some 7%Z)
                 (Some 1%Z) (Some [0%Z]) [])
              [3%Z] [] [100%Z] [7%Z] true [] in
   new_events (fst (cleanup w)) (fst (cleanup (fst (cleanup w))))
   = [EvPrint (cps "Error closing debug file"); EvTcsetattr [0%Z] true;
      EvHttpShutdown 1; EvHttpServerClose 1; EvClose 3 false] /\
   snd (cleanup (fst (cleanup w))) = Raise OSError) /\
  (let w := world_of fresh_wrapper [] [] [] in
   snd (cleanup (fst (cleanup w))) = Ret tt /\
   new_events (fst (cleanup w)) (fst (cleanup (fst (cleanup w)))) = []).
Proof.
  cbv zeta. split.
  - exact (proj1 (proj2 (proj2
      (cleanup_second_call
         (mkWorld
            (mkClaudeWrapper (Some 3%Z) (Some 4%Z) (Some 100%Z)
               (Classifier.init 0) 8080 true false None (Some 7%Z)
               (Some 1%Z) (Some [0%Z]) [])
            [3%Z] [] [100%Z] [7%Z] true [])))) eq_refl).
  - pose proof (proj2 (proj2 (proj2
        (cleanup_second_call (world_of fresh_wrapper [] [] []))))
        eq_refl) as H.
    split; [exact (proj1 (proj2 H)) | exact (proj2 (proj2 (proj2 H)))].
Defined.

(** C3 as stated fails: after a run that started the child, the first
    call closes descriptor 3 and returns; the second call tries to close
    it again and raises. *)
Lemma cleanup_is_not_idempotent :
  let w := world_of (started_wrapper 3 100) [3%Z] [] [100%Z] in
  let w1 := fst (cleanup w) in
  snd (cleanup w) = Ret tt /\
  snd (cleanup w1) = Raise OSError /\
  new_events w1 (fst (cleanup w1)) = [EvClose 3 false].
Proof. cbv zeta. repeat split. Qed.

End EffectsClaims.

(* ===================================================================== *)
(** ** More on the classifier: the buffer as a window, modes and buttons *)
(* ===================================================================== *)

Module ClassifierMore.
Import Text Utf8 Classifier Design Notions ClassifierFacts TextFacts Utf8Facts.
Local Open Scope string_scope.

(** *** The buffer as a window on the stream *)

Lemma last_chars_short n (s : text) :
  (length s <= n)%nat -> last_chars n s = s.
Proof.
  intros H. unfold last_chars.
  replace (length s - n)%nat with 0%nat by lia. reflexivity.
Qed.

Lemma last_chars_app_window n (a d : text) :
  last_chars n (last_chars n a ++ d)%list = last_chars n (a ++ d)%list.
Proof.
  destruct (Nat.le_gt_cases (length a) n) as [H | H].
  - rewrite (@last_chars_short n a H). reflexivity.
  - unfold last_chars at 1 3. rewrite !length_app, last_chars_length by lia.
    unfold last_chars.
    replace (skipn (length a - n) a ++ d)%list
      with (skipn (length a - n) (a ++ d))
      by (rewrite skipn_app;
          replace (length a - n - length a)%nat with 0%nat by lia;
          reflexivity).
    rewrite skipn_skipn. f_equal. lia.
Qed.

(** X1.  After any sequence of chunks fed to a new classifier, the
    buffer is exactly the last 2000 characters of all the text decoded
    so far (all of it while there are no more than 2000). *)
Theorem buffer_is_window_on_stream (lower : text -> text) now0 chunks :
  buffer (ingest_all lower (init now0) chunks)
  = last_chars 2000 (decoded_all chunks).
Proof.
  induction chunks as [| c chunks IH] using rev_ind; [reflexivity |].
  rewrite ingest_all_snoc, parse_output_buffer, IH. cbv zeta.
  unfold decoded_all. rewrite map_app, concat_app. cbn [map concat].
  rewrite app_nil_r. fold (decoded_all chunks).
  change BUFFER_CAP with 2000%nat.
  set (d := decode Ignore (snd c)).
  transitivity (last_chars 2000 (last_chars 2000 (decoded_all chunks) ++ d)%list).
  - destruct (Nat.ltb_spec 2000
                (length (last_chars 2000 (decoded_all chunks) ++ d)%list))
      as [H | H]; [reflexivity |].
    symmetry. apply last_chars_short. exact H.
  - apply last_chars_app_window.
Qed.

(** *** Mode and model *)

Lemma update_mode_one_of t (lower : text -> text) self :
  mode (update_mode lower t self) = mode self \/
  model (update_mode lower t self) = model self.
Proof.
  unfold update_mode.
  repeat match goal with
         | |- context [if ?c then _ else _] => destruct c
         end; cbn; auto.
Qed.

Lemma update_mode_model t (lower : text -> text) self :
  model (update_mode lower t self) = model self \/
  In (model (update_mode lower t self)) MODELS.
Proof.
  unfold update_mode.
  repeat match goal with
         | |- context [if ?c then _ else _] => destruct c
         end; cbn [model set_mode set_model];
    solve [ left; reflexivity | right; cbv [MODELS In]; tauto ].
Qed.

Lemma update_mode_written t (lower : text -> text) self :
  mode (update_mode lower t self) = mode self \/
  In (mode (update_mode lower t self)) WRITTEN_MODES.
Proof.
  unfold update_mode.
  repeat match goal with
         | |- context [if ?c then _ else _] => destruct c
         end; cbn [mode set_mode set_model];
    solve [ left; reflexivity | right; cbv [WRITTEN_MODES In]; tauto ].
Qed.

(** X2.  A call changes at most one of [mode] and [model]: the rules
    for the model sit in the same [if]/[elif] chain as the rules for the
    mode.  And the model of a reachable state is "unknown", "opus" or
    "sonnet". *)
Theorem mode_and_model_change_apart (lower : text -> text) :
  (forall now self data,
      mode (parse_output lower now self data) = mode self \/
      model (parse_output lower now self data) = model self) /\
  (forall s, reachable lower s -> In (model s) MODELS).
Proof.
  split.
  - intros. rewrite parse_output_mode, parse_output_model.
    apply update_mode_one_of.
  - intros s Hs. induction Hs as [now | now self data Hs IH].
    + cbn. auto.
    + rewrite parse_output_model.
      destruct (update_mode_model (decode Ignore data) lower self) as [E | E].
      * rewrite E. exact IH.
      * exact E.
Qed.

Lemma mode_and_model_change_apart_witness :
  In (model (parse_output ascii_lower 1 (init 0)
               (utf8 (cps "Set model to opus")))) MODELS.
Proof.
  apply (proj2 (mode_and_model_change_apart ascii_lower)).
  apply reach_parse. apply reach_init.
Defined.

Lemma reachable_written (lower : text -> text) s :
  reachable lower s -> In (mode s) WRITTEN_MODES.
Proof.
  intros Hs. induction Hs as [now | now self data Hs IH].
  - cbn. auto.
  - rewrite parse_output_mode.
    destruct (update_mode_written (decode Ignore data) lower self) as [E | E].
    + rewrite E. exact IH.
    + exact E.
Qed.

(** X3.  In every reachable state the button configuration is the
    default one exactly when the mode is still "unknown": every mode
    [parse_output] writes has an entry of its own in the table of
    [_get_button_config].  And the shift-tab button is enabled in the
    configuration [get_state] reports. *)
Theorem button_config_of_reachable (lower : text -> text) s :
  reachable lower s ->
  (get_button_config s = default_config <-> mode s = "unknown") /\
  shift_tab_enabled (sd_button_config (get_state s)) = true.
Proof.
  intros Hs. apply reachable_written in Hs.
  unfold get_state, get_button_config. cbn [sd_button_config].
  cbv [WRITTEN_MODES In] in Hs.
  repeat match goal with
         | H : _ \/ _ |- _ => destruct H as [H | H]
         end; try contradiction; rewrite <- Hs; cbn;
    (split; [split; intros E; first [reflexivity | discriminate E] |
             reflexivity]).
Qed.

Lemma button_config_of_reachable_witness :
  get_button_config
    (parse_output ascii_lower 1 (init 0) (utf8 (cps "hello")))
  = default_config.
Proof.
  assert (R : reachable ascii_lower
                (parse_output ascii_lower 1 (init 0) (utf8 (cps "hello"))))
    by (apply reach_parse; apply reach_init).
  apply (proj2 (proj1 (@button_config_of_reachable ascii_lower _ R))).
  reflexivity.
Defined.

End ClassifierMore.

(* ===================================================================== *)
(** ** More on text: the UTF-8 round trip, escape sequences, the prompt *)
(* ===================================================================== *)

Module TextMore.
Import Text Utf8 Classifier Design Notions ClassifierFacts TextFacts Utf8Facts.
Local Open Scope N_scope.

(** *** Encoding and decoding *)

Lemma to_N_byte_of_N n : n < 256 -> Byte.to_N (byte_of_N n) = n.
Proof.
  intros H. unfold byte_of_N. destruct (Byte.of_N n) as [b |] eqn:E.
  - apply Byte.to_of_N. exact E.
  - apply Byte.of_N_None_iff in E. lia.
Qed.

Lemma encode_cp_bytes c :
  encodable c = true -> Forall (fun v => v < 256) (encode_cp c).
Proof.
  intros H. apply encodable_range in H. destruct H as [Hmax _].
  unfold encode_cp.
  destruct (N.ltb_spec c 0x80); [repeat constructor; lia |].
  destruct (N.ltb_spec c 0x800); [repeat constructor; lia |].
  destruct (N.ltb_spec c 0x10000); repeat constructor; lia.
Qed.

Lemma encode_values_bytes t :
  forallb encodable t = true -> Forall (fun v => v < 256) (encode_values t).
Proof.
  unfold encode_values. induction t as [| c t IH]; intros H; cbn [flat_map].
  - constructor.
  - cbn [forallb] in H. apply andb_prop in H. destruct H as [Hc Ht].
    apply Forall_app. split; [apply encode_cp_bytes; exact Hc | exact (IH Ht)].
Qed.

Lemma map_to_N_byte_of_N vs :
  Forall (fun v => v < 256) vs -> map Byte.to_N (map byte_of_N vs) = vs.
Proof.
  induction 1 as [| v vs Hv _ IH]; cbn; [reflexivity |].
  rewrite to_N_byte_of_N by exact Hv. rewrite IH. reflexivity.
Qed.

Lemma decode_values_encode_values e t :
  forallb encodable t = true -> decode_values e (encode_values t) = t.
Proof.
  unfold encode_values. induction t as [| c t IH]; intros H; [reflexivity |].
  cbn [forallb] in H. apply andb_prop in H. destruct H as [Hc Ht].
  cbn [flat_map]. rewrite decode_values_encode_cp by exact Hc.
  rewrite (IH Ht). reflexivity.
Qed.

(** X4.  What [str.encode()] produces, [bytes.decode('utf-8')] reads
    back unchanged, whichever error handler is named: on well-formed
    input the handler is never called. *)
Theorem encode_decode_round_trip e t data :
  encode t = Some data -> decode e data = t.
Proof.
  unfold encode, decode.
  destruct (forallb encodable t) eqn:H; [| discriminate].
  intros [= <-]. rewrite map_to_N_byte_of_N by (apply encode_values_bytes; exact H).
  apply decode_values_encode_values. exact H.
Qed.

Lemma encode_decode_round_trip_witness :
  decode Ignore (utf8 AUTO_ACCEPT_ON) = AUTO_ACCEPT_ON.
Proof.
  apply (@encode_decode_round_trip Ignore AUTO_ACCEPT_ON (utf8 AUTO_ACCEPT_ON)).
  reflexivity.
Defined.

(** *** Stripping *)

Lemma lstrip_head s c r : lstrip s = c :: r -> isspace c = false.
Proof.
  induction s as [| x s IH]; cbn; [discriminate |].
  destruct (isspace x) eqn:E; [exact IH |].
  intros [= <- _]. exact E.
Qed.

Lemma strip_trimmed l : trimmed (strip l) = true.
Proof.
  unfold strip, rstrip.
  destruct (lstrip (rev (lstrip l))) as [| c r] eqn:Eq; [reflexivity |].
  pose proof (@lstrip_head _ _ _ Eq) as Hc.
  destruct (lstrip_suffix (rev (lstrip l))) as [pre Hpre].
  rewrite Eq in Hpre.
  assert (Hm : lstrip l = (rev (c :: r) ++ rev pre)%list).
  { rewrite <- rev_app_distr, <- Hpre, rev_involutive. reflexivity. }
  destruct (rev (c :: r)) as [| h tl] eqn:Er.
  - apply (f_equal (@length N)) in Er. rewrite length_rev in Er. discriminate.
  - cbn [app] in Hm. apply lstrip_head in Hm.
    unfold trimmed. rewrite Hm. cbn [negb andb].
    rewrite <- Er. cbn [rev]. rewrite last_last, Hc. reflexivity.
Qed.

Lemma scan_lines_result lines prompt :
  scan_lines lines prompt = prompt \/
  exists l, scan_lines lines prompt = strip l /\
            is_prompt_line (strip l) = true.
Proof.
  induction lines as [| l ls IH]; cbn.
  - left. reflexivity.
  - destruct (is_prompt_line (strip l)) eqn:E; [| exact IH].
    right. exists l. split; [reflexivity | exact E].
Qed.

(** *** The ANSI pattern *)

Lemma re_sub_ansi_keeps a b :
  ~ In ESC a -> re_sub_ansi (a ++ b) = (a ++ re_sub_ansi b)%list.
Proof.
  unfold re_sub_ansi. induction a as [| c a IH]; intros H; [reflexivity |].
  cbn [app re_sub_ansi_from].
  assert (Hm : ansi_match_len (c :: a ++ b) = None).
  { unfold ansi_match_len. destruct (a ++ b)%list as [| x s']; [reflexivity |].
    destruct (N.eqb_spec c ESC) as [-> | _]; [| reflexivity].
    exfalso. apply H. left. reflexivity. }
  rewrite Hm. f_equal. apply IH. intros Hin. apply H. right. exact Hin.
Qed.

Lemma ansi_params_no_escape params :
  forallb is_ansi_param params = true -> ~ In ESC params.
Proof.
  intros H Hin. rewrite forallb_forall in H. specialize (H _ Hin).
  discriminate H.
Qed.

Lemma ansi_tail_len_other params c rest :
  forallb is_ansi_param params = true ->
  is_ansi_param c = false -> is_ansi_final c = false ->
  ansi_tail_len (params ++ c :: rest) = None.
Proof.
  intros Hp Hc Hf. induction params as [| x ps IH]; cbn.
  - rewrite Hc, Hf. reflexivity.
  - cbn in Hp. apply andb_prop in Hp. destruct Hp as [Hx Hps].
    rewrite Hx, (IH Hps). reflexivity.
Qed.

Lemma ansi_tail_len_cut params :
  forallb is_ansi_param params = true -> ansi_tail_len params = None.
Proof.
  induction params as [| x ps IH]; cbn; [reflexivity |].
  intros Hp. apply andb_prop in Hp. destruct Hp as [Hx Hps].
  rewrite Hx, (IH Hps). reflexivity.
Qed.

Lemma re_sub_ansi_step c s :
  ansi_match_len (c :: s) = None -> re_sub_ansi (c :: s) = c :: re_sub_ansi s.
Proof.
  intros H. unfold re_sub_ansi.
  change (re_sub_ansi_from 0 (c :: s))
    with (match ansi_match_len (c :: s) with
          | Some (S k) => re_sub_ansi_from k s
          | _ => c :: re_sub_ansi_from 0 s
          end).
  rewrite H. reflexivity.
Qed.

(** X6.  Only the sequences that end in [m] or [K] are deleted: an
    escape sequence with any other final character (a cursor movement,
    a screen clear) stays in the text in full, and so does a sequence
    that the end of the buffer cuts short. *)
Theorem only_m_and_K_sequences_are_removed params :
  forallb is_ansi_param params = true ->
  (forall c rest,
      is_ansi_param c = false -> is_ansi_final c = false ->
      re_sub_ansi (ESC :: 91 :: params ++ c :: rest)
      = (ESC :: 91 :: params ++ re_sub_ansi (c :: rest))%list) /\
  re_sub_ansi (ESC :: 91 :: params) = ESC :: 91 :: params.
Proof.
  intros Hp.
  assert (Hesc : ~ In ESC (91 :: params)).
  { intros [E | Hin]; [discriminate E |].
    exact (@ansi_params_no_escape params Hp Hin). }
  split.
  - intros c rest Hc Hf. rewrite re_sub_ansi_step.
    + f_equal.
      change (91 :: params ++ c :: rest)
        with ((91 :: params) ++ c :: rest)%list.
      rewrite re_sub_ansi_keeps by exact Hesc. reflexivity.
    + unfold ansi_match_len.
      change ((ESC =? ESC) && (91 =? 91)) with true. cbv iota.
      rewrite (@ansi_tail_len_other params c rest Hp Hc Hf). reflexivity.
  - rewrite re_sub_ansi_step.
    + f_equal. apply re_sub_ansi_no_escape. exact Hesc.
    + unfold ansi_match_len.
      change ((ESC =? ESC) && (91 =? 91)) with true. cbv iota.
      rewrite (@ansi_tail_len_cut params Hp). reflexivity.
Qed.

(** ESC [ 2 J, the screen clear, before a prompt. *)
Lemma only_m_and_K_sequences_are_removed_witness :
  re_sub_ansi (ESC :: 91 :: cps "2" ++ 74 :: cps "> ")
  = (ESC :: 91 :: cps "2" ++ 74 :: cps "> ")%list.
Proof.
  apply (proj1 (@only_m_and_K_sequences_are_removed (cps "2") eq_refl)
           74 (cps "> ") eq_refl eq_refl).
Defined.

End TextMore.

Module PromptMore.
Import Text Utf8 Classifier Design Notions ClassifierFacts TextFacts.
Import ClassifierClaims TextMore.

(** X5.  In every reachable state the prompt is either empty or a line
    that contains ">", does not start with "[" and has no white space at
    either end. *)
Theorem prompt_is_empty_or_a_trimmed_prompt_line (lower : text -> text) s :
  reachable lower s ->
  current_prompt s = [] \/
  (is_prompt_line (current_prompt s) = true /\
   trimmed (current_prompt s) = true).
Proof.
  intros Hs. induction Hs as [now | now self data Hs IH].
  - left. reflexivity.
  - rewrite parse_output_current_prompt.
    destruct (scan_lines_result
                (rev (split LF (re_sub_ansi
                   (buffer (parse_output lower now self data)))))
                (current_prompt self)) as [E | [l [E Hl]]].
    + rewrite E. exact IH.
    + right. rewrite E. split; [exact Hl | apply strip_trimmed].
Qed.

Lemma prompt_is_empty_or_a_trimmed_prompt_line_witness :
  let s := parse_output ascii_lower 1 (init 0) (utf8 EXAMPLE_BUFFER) in
  current_prompt s = [] \/
  (is_prompt_line (current_prompt s) = true /\
   trimmed (current_prompt s) = true).
Proof.
  cbv zeta.
  apply (@prompt_is_empty_or_a_trimmed_prompt_line ascii_lower).
  apply reach_parse. apply reach_init.
Defined.

End PromptMore.

(* ===================================================================== *)
(** ** The prompt: which line, and what is deleted before *)
(* ===================================================================== *)

Module PromptClaims.
Import Text Utf8 Classifier Design ClassifierFacts TextFacts TextMore.
Local Open Scope N_scope.









End PromptClaims.

(* ===================================================================== *)
(** ** The older classifier of [src/claude_deck_wrapper.py] *)
(* ===================================================================== *)

Module OlderFacts.
Import Text Utf8 Design Notions ClassifierFacts.
Import Older.
Local Open Scope string_scope.

Ltac branches :=
  repeat match goal with
         | |- context [if ?c then _ else _] => destruct c
         end.

Lemma older_update_mode_buffer (lower : text -> text) t self :
  buffer (update_mode lower t self) = buffer self.
Proof. unfold update_mode. branches; reflexivity. Qed.

Lemma older_parse_output_buffer (lower : text -> text) now self data :
  buffer (parse_output lower now self data) =
  let b := (buffer self ++ decode Ignore data)%list in
  if (BUFFER_CAP <? length b)%nat then last_chars BUFFER_CAP b else b.
Proof.
  unfold parse_output, extract_prompt. cbn [buffer set_current_prompt].
  rewrite older_update_mode_buffer. cbn [buffer set_buffer set_last_update].
  destruct (BUFFER_CAP <? length (buffer self ++ decode Ignore data))%nat;
    reflexivity.
Qed.

Lemma older_parse_output_mode (lower : text -> text) now self data :
  mode (parse_output lower now self data) =
  mode (update_mode lower (decode Ignore data) self).
Proof.
  unfold parse_output, extract_prompt. cbn [mode set_current_prompt].
  unfold update_mode. branches; reflexivity.
Qed.

Lemma older_update_mode_modes (lower : text -> text) t self :
  mode (update_mode lower t self) = mode self \/
  In (mode (update_mode lower t self)) OLDER_MODES.
Proof.
  unfold update_mode. branches; cbn [mode set_mode];
    solve [ left; reflexivity | right; cbv [OLDER_MODES In]; tauto ].
Qed.

(** X7.  The older classifier keeps at most 1000 characters: after every
    call, from any state and for any chunk, the buffer is the old buffer
    with the decoded chunk appended, cut to its last 1000 characters. *)
Theorem older_buffer_bound (lower : text -> text) now self data :
  buffer (parse_output lower now self data)
  = last_chars 1000 (buffer self ++ decode Ignore data)%list /\
  (length (buffer (parse_output lower now self data)) <= 1000)%nat.
Proof.
  rewrite older_parse_output_buffer. cbv zeta. change BUFFER_CAP with 1000%nat.
  destruct (Nat.ltb_spec 1000
              (length (buffer self ++ decode Ignore data)%list)) as [H | H].
  - split; [reflexivity |]. rewrite last_chars_length; lia.
  - split; [| exact H]. unfold last_chars.
    replace (length (buffer self ++ decode Ignore data)%list - 1000)%nat
      with 0%nat by lia.
    reflexivity.
Qed.

(** X8.  The older classifier knows four modes.  A chunk that contains
    ">" never leaves it in "unknown": whichever rule fires, the mode is
    "planning", "auto-accept" or "interactive". *)
Theorem older_modes (lower : text -> text) :
  (forall s, reachable lower s -> In (mode s) OLDER_MODES) /\
  (forall now self data,
      contains (cps ">") (decode Ignore data) = true ->
      In (mode (parse_output lower now self data))
         ["planning"; "auto-accept"; "interactive"]).
Proof.
  split.
  - intros s Hs. induction Hs as [now | now self data Hs IH].
    + cbn. auto.
    + rewrite older_parse_output_mode.
      destruct (older_update_mode_modes lower (decode Ignore data) self) as [E | E].
      * rewrite E. exact IH.
      * exact E.
  - intros now self data H. rewrite older_parse_output_mode.
    unfold update_mode. rewrite H. branches; cbn; auto.
Qed.

Lemma older_modes_witness :
  In (mode (parse_output ascii_lower 1 (init 0) (utf8 (cps "> "))))
     ["planning"; "auto-accept"; "interactive"].
Proof.
  apply (proj2 (older_modes ascii_lower)). reflexivity.
Defined.

End OlderFacts.

(* ===================================================================== *)
(** ** More on [send_command] *)
(* ===================================================================== *)

Module DispatchMore.
Import Text Utf8 Classifier Effects Wrapper Design Notions EffectsFacts.

(** X9.  A wrapper that is not running, or has no master descriptor,
    refuses every command: [send_command] returns [False] and does
    nothing at all.  That is the state [cleanup] leaves, so no command
    is written once [cleanup] has run. *)
Theorem send_command_refused_when_stopped command w :
  (truthy_int (master_fd (self w)) && running (self w) = false ->
   send_command command w = (w, Ret false)) /\
  send_command command (fst (cleanup w)) = (fst (cleanup w), Ret false).
Proof.
  assert (H : forall w',
             truthy_int (master_fd (self w')) && running (self w') = false ->
             send_command command w' = (w', Ret false)).
  { intros w' Hg. unfold send_command, bind, get_self, ret.
    unfold truthy_int in Hg.
    destruct (master_fd (self w')) as [fd |]; [| reflexivity].
    rewrite Hg. reflexivity. }
  split; [apply H |].
  apply H. rewrite cleanup_self. destruct (self w). cbn.
  apply andb_false_r.
Qed.

Lemma send_command_refused_when_stopped_witness :
  let w := world_of fresh_wrapper [] [] [] in
  send_command (cps "help") w = (w, Ret false).
Proof.
  cbv zeta.
  apply (proj1 (send_command_refused_when_stopped (cps "help")
                  (world_of fresh_wrapper [] [] []))).
  reflexivity.
Defined.

(** X10.  [send_command] changes nothing but the trace and the schedule
    of write failures: the wrapper object, the descriptor table, the
    process table and the open files are as before, whatever the
    outcome. *)
Theorem send_command_frame command w :
  let w' := fst (send_command command w) in
  self w' = self w /\ open_fds w' = open_fds w /\
  processes w' = processes w /\ open_files w' = open_files w /\
  tty_ok w' = tty_ok w.
Proof.
  cbv zeta. open_world w. unfold_run. crunch; repeat split.
Qed.

(** X11.  [send_command] lets no [OSError] out: what it can raise is
    [ValueError] (a closed debug file) or [UnicodeEncodeError] (a
    command with a lone surrogate).  With no debug file and a command
    that [str.encode] accepts it always returns a truth value. *)
Theorem send_command_returns_or_raises command w :
  (forall e, snd (send_command command w) = Raise e ->
             e = ValueError \/ e = UnicodeEncodeError) /\
  (debug_handle (self w) = None -> encode command <> None ->
   exists b, snd (send_command command w) = Ret b).
Proof.
  split; [intros e; apply send_command_raises |].
  intros Hd Henc. destruct (snd (send_command command w)) as [b | e] eqn:E.
  - exists b. reflexivity.
  - exfalso. revert E. open_world w. cbn [self debug_handle] in Hd. subst.
    destruct (encode command) as [data |] eqn:Ee; [| congruence].
    unfold_run. rewrite ?Ee. crunch; discriminate.
Qed.

Lemma send_command_returns_or_raises_witness :
  exists b,
    snd (send_command (cps "help")
           (world_of (started_wrapper 3 100) [] [] [100%Z])) = Ret b.
Proof.
  apply (proj2 (send_command_returns_or_raises (cps "help")
           (world_of (started_wrapper 3 100) [] [] [100%Z])));
    [reflexivity | discriminate].
Defined.

(** X12.  A command with a lone surrogate (JSON allows one) cannot be
    encoded: on a running wrapper without a debug file,
    [send_command] raises [UnicodeEncodeError] before any byte is
    written, the [except OSError] clause does not catch it, and
    [do_POST] lets it through without an answer. *)
Theorem unencodable_command_escapes command w fd :
  master_fd (self w) = Some fd -> fd <> 0%Z -> running (self w) = true ->
  debug_handle (self w) = None ->
  encode command = None ->
  send_command command w = (w, Raise UnicodeEncodeError) /\
  (forall items,
      assoc (cps "command") items = Some (JStr command) ->
      do_POST (mkRequest (cps "/command") (Ret (JObj items))) w
      = (w, Raise UnicodeEncodeError)).
Proof.
  intros Hfd Hnz Hrun Hd Henc.
  assert (Hne : command <> []).
  { intros ->. discriminate Henc. }
  assert (Hsend : send_command command w = (w, Raise UnicodeEncodeError)).
  { apply Z.eqb_neq in Hnz. apply TextFacts.eqb_nil_false in Hne.
    revert Hfd Hrun Hd. open_world w. cbn [self master_fd running debug_handle].
    intros -> -> ->. unfold_run. rewrite Hnz. cbn [negb andb].
    crunch; reflexivity. }
  split; [exact Hsend |].
  intros items Hget. unfold do_POST. cbn [path loads].
  change (Text.eqb (cps "/command") (cps "/command")) with true. cbv iota.
  unfold try_except, bind, lift, dict_get, ret. rewrite Hget, Hsend.
  reflexivity.
Qed.

Lemma unencodable_command_escapes_witness :
  let w := world_of (started_wrapper 3 100) [3%Z] [] [100%Z] in
  send_command [0xD800%N] w = (w, Raise UnicodeEncodeError).
Proof.
  cbv zeta.
  apply (proj1 (@unencodable_command_escapes
                  [0xD800%N]
                  (world_of (started_wrapper 3 100) [3%Z] [] [100%Z]) 3%Z
                  eq_refl ltac:(discriminate) eq_refl eq_refl eq_refl)).
Defined.

End DispatchMore.

(* ===================================================================== *)
(** ** More on the HTTP handler *)
(* ===================================================================== *)

Module HandlerMore.
Import Text Utf8 Classifier Effects Wrapper StateEndpoint.
Import Design Notions EffectsFacts.



(** A command that is not a [str] changes nothing in the wrapper object,
    and is refused or ends in an exception. *)
Lemma send_command_not_str_outcome v w :
  self (fst (send_command_not_str v w)) = self w /\
  (send_command_not_str v w = (w, Ret false) \/
   snd (send_command_not_str v w) = Raise AttributeError \/
   snd (send_command_not_str v w) = Raise ValueError).
Proof.
  open_world w. unfold_run. crunch; split; auto.
Qed.

(** The world [do_POST] leaves is the one it got or the one a
    [send_command] left. *)
Lemma do_POST_world req w :
  fst (do_POST req w) = w \/
  (exists t, fst (do_POST req w) = fst (send_command t w)) \/
  (exists v, fst (do_POST req w) = fst (send_command_not_str v w)).
Proof.
  destruct req as [p l]. unfold do_POST. cbn [path loads].
  destruct (Text.eqb p (cps "/command")); [| left; reflexivity].
  unfold try_except, bind, lift, dict_get, ret, raise.
  destruct l as [data | e]; [| left; destruct (isinstance e JSONDecodeError);
                                reflexivity].
  assert (Hsend : forall t c,
    fst (let (w', r0) :=
           let (w'0, r) := send_command t w in
           match r with
           | Ret a => (w'0, Ret (json_200 (command_response a c)))
           | Raise e => (w'0, Raise e)
           end in
         match r0 with
         | Ret a => (w', Ret a)
         | Raise e =>
             if isinstance e JSONDecodeError then (w', Ret (plain 400))
             else (w', Raise e)
         end) = fst (send_command t w)).
  { intros t c. destruct (send_command t w) as [w' [b | e]]; cbn [fst];
      [reflexivity |]. destruct (isinstance e JSONDecodeError); reflexivity. }
  assert (Hnot : forall v c,
    fst (let (w', r0) :=
           let (w'0, r) := send_command_not_str v w in
           match r with
           | Ret a => (w'0, Ret (json_200 (command_response a c)))
           | Raise e => (w'0, Raise e)
           end in
         match r0 with
         | Ret a => (w', Ret a)
         | Raise e =>
             if isinstance e JSONDecodeError then (w', Ret (plain 400))
             else (w', Raise e)
         end) = fst (send_command_not_str v w)).
  { intros v c. destruct (send_command_not_str v w) as [w' [b | e]]; cbn [fst];
      [reflexivity |]. destruct (isinstance e JSONDecodeError); reflexivity. }
  destruct data as [| b | z | t | l | items]; try (left; reflexivity).
  destruct (assoc (cps "command") items) as [[| b | z | t | l | items'] |];
    try (left; reflexivity);
    first [ right; left; eexists; apply Hsend
          | right; right; eexists; apply Hnot ].
Qed.




(** X14.  A body that is JSON but not an object (a list, a string, a
    number) is not answered at all: [data.get] raises [AttributeError],
    which the handler does not catch. *)
Theorem post_non_object_body data w :
  (forall items, data <> JObj items) ->
  do_POST (mkRequest (cps "/command") (Ret data)) w
  = (w, Raise AttributeError).
Proof.
  intros H. unfold do_POST. cbn [path loads].
  change (Text.eqb (cps "/command") (cps "/command")) with true. cbv iota.
  destruct data as [| b | z | t | l | items]; try reflexivity.
  exfalso. exact (H items eq_refl).
Qed.

Lemma post_non_object_body_witness :
  let w := world_of (started_wrapper 3 100) [3%Z] [] [100%Z] in
  do_POST (mkRequest (cps "/command") (Ret (JArr []))) w
  = (w, Raise AttributeError).
Proof.
  cbv zeta. apply post_non_object_body. intros items. discriminate.
Defined.

(** X15.  On a running wrapper whose writes succeed, POST /command with
    a command string writes exactly what the framing policy says for
    it, and answers 200 with the status "sent" and the command echoed
    back. *)
Theorem post_command_dispatches items command data w fd :
  master_fd (self w) = Some fd -> fd <> 0%Z -> running (self w) = true ->
  mem fd (open_fds w) = true ->
  forallb negb (write_faults w) = true ->
  (forall h, debug_handle (self w) = Some h -> mem h (open_files w) = true) ->
  encode command = Some data ->
  assoc (cps "command") items = Some (JStr command) ->
  let req := mkRequest (cps "/command") (Ret (JObj items)) in
  snd (do_POST req w)
  = Ret (json_200 (JObj [(cps "status", JStr (cps "sent"));
                         (cps "command", JStr command)])) /\
  io_events (new_events w (fst (do_POST req w))) = framing fd command data.
Proof.
  intros Hfd Hnz Hrun Hopen Hfaults Hdebug Henc Hget. cbv zeta.
  destruct (@send_command_ok command data w fd
              Hfd Hnz Hrun Hopen Hfaults Hdebug Henc)
    as [evs [Htr [Hret [Hio _]]]].
  rewrite (@do_POST_command _ _ _ w Hget Hret). cbn [fst snd].
  split; [reflexivity |].
  rewrite (@new_events_app _ _ _ Htr). exact Hio.
Qed.

Lemma post_command_dispatches_witness :
  let w := world_of (started_wrapper 3 100) [3%Z] [] [100%Z] in
  let req := mkRequest (cps "/command")
               (Ret (JObj [(cps "command", JStr [ESC; 91; 65]%N)])) in
  io_events (new_events w (fst (do_POST req w)))
  = [EvWrite 3 [x1b; x5b; x41] true].
Proof.
  cbv zeta.
  apply (proj2
    (@post_command_dispatches
       [(cps "command", JStr [ESC; 91; 65]%N)] [ESC; 91; 65]%N
       [x1b; x5b; x41]
       (world_of (started_wrapper 3 100) [3%Z] [] [100%Z]) 3%Z
       eq_refl ltac:(discriminate) eq_refl eq_refl eq_refl
       ltac:(intros h H; discriminate H) eq_refl eq_refl)).
Defined.

Lemma send_command_self_fixed command w :
  self (fst (send_command command w)) = self w.
Proof. open_world w. unfold_run. crunch; reflexivity. Qed.

(** *** GET /state *)

Lemma do_GET_of_state p w1 w2 :
  state (self w1) = state (self w2) ->
  snd (do_GET p w1) = snd (do_GET p w2).
Proof.
  intros H. unfold do_GET, bind, get_self, ret.
  destruct (Text.eqb p (cps "/state")); cbn [snd]; [| reflexivity].
  rewrite H. reflexivity.
Qed.

(** X16.  A GET changes nothing, and what it answers is changed by
    neither [send_command], [do_POST] nor [cleanup]: none of them
    touches the classifier's state. *)
Theorem get_state_is_read_only p w :
  fst (do_GET p w) = w /\
  (forall command,
      snd (do_GET p (fst (send_command command w))) = snd (do_GET p w)) /\
  (forall req,
      snd (do_GET p (fst (do_POST req w))) = snd (do_GET p w)) /\
  snd (do_GET p (fst (cleanup w))) = snd (do_GET p w).
Proof.
  split.
  { unfold do_GET, bind, get_self, ret.
    destruct (Text.eqb p (cps "/state")); reflexivity. }
  assert (Hsend : forall command,
             state (self (fst (send_command command w))) = state (self w)).
  { intros command.
    rewrite (send_command_self_fixed command w). reflexivity. }
  split; [| split].
  - intros command. apply do_GET_of_state. apply Hsend.
  - intros req. apply do_GET_of_state.
    destruct (do_POST_world req w) as [E | [[t E] | [v E]]]; rewrite E;
      [reflexivity | apply Hsend |].
    rewrite (proj1 (send_command_not_str_outcome v w)). reflexivity.
  - apply do_GET_of_state. rewrite cleanup_self. destruct (self w).
    reflexivity.
Qed.

End HandlerMore.

(* ===================================================================== *)
(** ** More on [cleanup] *)
(* ===================================================================== *)

Module CleanupMore.
Import Text Utf8 Classifier Effects Wrapper Design Notions EffectsFacts.

Ltac flatten_trace := repeat rewrite <- app_assoc; cbn [app].

(** X17.  With every handle set and every resource alive, [cleanup]
    releases in this order: the debug log gets its last line and is
    closed, the terminal settings are restored, the HTTP server is shut
    down and closed, the master descriptor is closed, the child gets
    SIGTERM and, half a second later, SIGKILL. *)
Theorem cleanup_order w h settings0 settings server fd pid :
  debug_handle (self w) = Some h -> mem h (open_files w) = true ->
  original_settings (self w) = Some (settings0 :: settings) ->
  tty_ok w = true ->
  http_server (self w) = Some server ->
  master_fd (self w) = Some fd -> fd <> 0%Z -> mem fd (open_fds w) = true ->
  claude_pid (self w) = Some pid -> pid <> 0%Z ->
  mem pid (processes w) = true ->
  snd (cleanup w) = Ret tt /\
  new_events w (fst (cleanup w))
  = [EvDebugWrite h DbgLogEnded; EvDebugClose h;
     EvTcsetattr (settings0 :: settings) true;
     EvHttpShutdown server; EvHttpServerClose server;
     EvClose fd true;
     EvKill pid 15 true; EvSleep 500000; EvKill pid 9 true].
Proof.
  open_world w.
  cbn [self debug_handle open_files original_settings tty_ok http_server
       master_fd open_fds claude_pid processes].
  intros -> Hh -> -> -> -> Hfd Hopen -> Hpid Hproc.
  apply Z.eqb_neq in Hfd, Hpid.
  assert (E : exists evs,
    cleanup
      {| self := {| master_fd := Some fd; slave_fd := slave_fd0;
                    claude_pid := Some pid; state := state0; port := port0;
                    running := running0; debug := debug0;
                    debug_file := debug_file0; debug_handle := Some h;
                    http_server := Some server;
                    original_settings := Some (settings0 :: settings);
                    claude_args := claude_args0 |};
         open_fds := open_fds0; write_faults := write_faults0;
         processes := processes0; open_files := open_files0;
         tty_ok := true; trace := trace0 |}
    = (mkWorld
         {| master_fd := Some fd; slave_fd := slave_fd0;
            claude_pid := Some pid; state := state0; port := port0;
            running := false; debug := debug0;
            debug_file := debug_file0; debug_handle := Some h;
            http_server := Some server;
            original_settings := Some (settings0 :: settings);
            claude_args := claude_args0 |}
         (remove fd open_fds0) write_faults0 processes0
         (remove h open_files0) true (trace0 ++ evs), Ret tt) /\
    evs = [EvDebugWrite h DbgLogEnded; EvDebugClose h;
           EvTcsetattr (settings0 :: settings) true;
           EvHttpShutdown server; EvHttpServerClose server;
           EvClose fd true;
           EvKill pid 15 true; EvSleep 500000; EvKill pid 9 true]).
  { eexists. split; [| reflexivity].
    unfold_run. rewrite Hfd, Hpid. cbn [negb].
    crunch. flatten_trace. reflexivity. }
  destruct E as [evs [E Hevs]]. rewrite E. cbn [fst snd].
  split; [reflexivity |].
  rewrite (@new_events_app _ _ evs) by reflexivity. exact Hevs.
Qed.

Lemma cleanup_order_witness :
  snd (cleanup
         (mkWorld
            (mkClaudeWrapper (Some 3%Z) (Some 4%Z) (Some 100%Z)
               (Classifier.init 0) 8080 true false None (Some 7%Z)
               (Some 1%Z) (Some [0%Z]) [])
            [3%Z] [] [100%Z] [7%Z] true []))
  = Ret tt.
Proof.
  apply (proj1 (@cleanup_order
           (mkWorld
              (mkClaudeWrapper (Some 3%Z) (Some 4%Z) (Some 100%Z)
                 (Classifier.init 0) 8080 true false None (Some 7%Z)
                 (Some 1%Z) (Some [0%Z]) [])
              [3%Z] [] [100%Z] [7%Z] true [])
           7%Z 0%Z [] 1%Z 3%Z 100%Z
           eq_refl eq_refl eq_refl eq_refl eq_refl eq_refl
           ltac:(discriminate) eq_refl eq_refl ltac:(discriminate) eq_refl)).
Defined.

(** X18.  [cleanup] can raise nothing but the [OSError] of [os.close]:
    a closed debug file, a stdin that is no terminal and a child that is
    gone are all passed over.  It returns normally whenever the master
    descriptor is unset or still open. *)
Theorem cleanup_only_fails_on_close w :
  (forall e, snd (cleanup w) = Raise e -> e = OSError) /\
  ((forall fd, master_fd (self w) = Some fd -> fd <> 0%Z ->
               mem fd (open_fds w) = true) ->
   snd (cleanup w) = Ret tt).
Proof.
  split.
  - intros e. open_world w. unfold_run.
    crunch; intros H; first [discriminate H | injection H as <-; reflexivity].
  - open_world w. cbn [self master_fd open_fds]. intros H.
    destruct master_fd0 as [fd |].
    + destruct (Z.eqb fd 0) eqn:Hz.
      * unfold_run. rewrite Hz. cbn [negb]. crunch; reflexivity.
      * assert (Hopen : mem fd open_fds0 = true).
        { apply (H fd eq_refl). apply Z.eqb_neq. exact Hz. }
        unfold_run. rewrite Hz. cbn [negb]. crunch; reflexivity.
    + unfold_run. crunch; reflexivity.
Qed.

Lemma cleanup_only_fails_on_close_witness :
  snd (cleanup (mkWorld (started_wrapper 3 100) [3%Z] [] [] [] false []))
  = Ret tt.
Proof.
  apply (proj2 (cleanup_only_fails_on_close
           (mkWorld (started_wrapper 3 100) [3%Z] [] [] [] false []))).
  intros fd [= <-] _. reflexivity.
Defined.

(** What [cleanup] does last, when it gets there. *)
Lemma cleanup_tail w pid :
  claude_pid (self w) = Some pid -> pid <> 0%Z ->
  snd (cleanup w) = Ret tt ->
  exists evs,
    trace (fst (cleanup w)) = (trace w ++ evs)%list /\
    (mem pid (processes w) = true ->
     exists before,
       evs = (before ++ [EvKill pid 15 true; EvSleep 500000;
                         EvKill pid 9 true])%list) /\
    (mem pid (processes w) = false ->
     exists before, evs = (before ++ [EvKill pid 15 false])%list).
Proof.
  open_world w. cbn [self claude_pid processes]. intros -> Hpid.
  apply Z.eqb_neq in Hpid.
  unfold_run. rewrite Hpid. cbn [negb].
  crunch; intros Hret; try discriminate Hret;
    flatten_trace;
    (eexists; split; [reflexivity |]);
    (split; intros Hm; try discriminate Hm);
    first [ exists []; reflexivity
          | eexists [_]; reflexivity
          | eexists [_; _]; reflexivity
          | eexists [_; _; _]; reflexivity
          | eexists [_; _; _; _]; reflexivity
          | eexists [_; _; _; _; _]; reflexivity
          | eexists [_; _; _; _; _; _]; reflexivity ].
Qed.

(** X19.  When [cleanup] gets to the child: if the child is still in
    the process table it is sent SIGTERM and then, after the half
    second, SIGKILL without a second look; if it is gone, the failed
    SIGTERM is the last thing [cleanup] does (no pause, no SIGKILL). *)
Theorem cleanup_signals_child w pid :
  claude_pid (self w) = Some pid -> pid <> 0%Z ->
  snd (cleanup w) = Ret tt ->
  (mem pid (processes w) = true ->
   exists before,
     new_events w (fst (cleanup w))
     = (before ++ [EvKill pid 15 true; EvSleep 500000;
                   EvKill pid 9 true])%list) /\
  (mem pid (processes w) = false ->
   exists before,
     new_events w (fst (cleanup w))
     = (before ++ [EvKill pid 15 false])%list).
Proof.
  intros Hpid Hnz Hret.
  destruct (cleanup_tail w Hpid Hnz Hret) as [evs [Htr [Halive Hgone]]].
  rewrite (@new_events_app _ _ evs Htr). split; assumption.
Qed.

Lemma cleanup_signals_child_witness :
  let w := world_of (started_wrapper 3 100) [3%Z] [] [] in
  exists before,
    new_events w (fst (cleanup w)) = (before ++ [EvKill 100 15 false])%list.
Proof.
  cbv zeta.
  apply (proj2 (@cleanup_signals_child
                  (world_of (started_wrapper 3 100) [3%Z] [] []) 100%Z
                  eq_refl ltac:(discriminate) eq_refl)).
  reflexivity.
Defined.

End CleanupMore.

(* ===================================================================== *)
(** ** The older dispatcher of [src/claude_deck_wrapper.py] *)
(* ===================================================================== *)

Module OlderDispatch.
Import Text Utf8 Effects Design Notions LoopNotions EffectsFacts.
Import Wrapper.

(** Unfold the methods of the older file down to the world record. *)
Ltac unfold_older :=
  cbv [Simplified.send_command Simplified.send_command_not_str
       Simplified.log Simplified.do_POST dict_get lift
       bind ret raise try_except get_self when
       os_write time_sleep print str_encode
       emit with_write_faults
       truthy_int
       self open_fds write_faults processes open_files tty_ok trace
       master_fd running debug fst snd isinstance].


Lemma older_send_command_ok command data w fd :
  master_fd (self w) = Some fd -> fd <> 0%Z -> running (self w) = true ->
  mem fd (open_fds w) = true ->
  forallb negb (write_faults w) = true ->
  encode command = Some data ->
  exists evs,
    trace (fst (Simplified.send_command command w)) = (trace w ++ evs)%list /\
    snd (Simplified.send_command command w) = Ret true /\
    wire_events evs
    = [EvWrite fd data true; EvSleep 1000; EvWrite fd [x0d] true].
Proof.
  open_world w. cbn [self master_fd running open_fds write_faults].
  intros -> Hfd -> Hopen Hfaults Henc. apply Z.eqb_neq in Hfd.
  assert (Hfaults2 : match write_faults0 with
                     | [] => True
                     | true :: _ => False
                     | false :: [] => True
                     | false :: true :: _ => False
                     | false :: false :: _ => True
                     end).
  { destruct write_faults0 as [| [] [| [] ?]]; cbn in Hfaults;
      try discriminate; exact I. }
  unfold_older. rewrite Hfd. cbn [negb andb].
  crunch; try contradiction;
    repeat rewrite <- app_assoc; cbn [app];
    eexists; (split; [reflexivity |]); (split; [reflexivity |]);
    reflexivity.
Qed.

(** X20.  The older [send_command] has one framing for every command:
    the command's bytes, the 1 ms pause, one carriage return.  An
    escape sequence gets the carriage return too, and the empty command
    is a write of no bytes followed by the carriage return. *)
Theorem older_send_command_always_appends_cr command data w fd :
  master_fd (self w) = Some fd -> fd <> 0%Z -> running (self w) = true ->
  mem fd (open_fds w) = true ->
  forallb negb (write_faults w) = true ->
  encode command = Some data ->
  snd (Simplified.send_command command w) = Ret true /\
  wire_events (new_events w (fst (Simplified.send_command command w)))
  = [EvWrite fd data true; EvSleep 1000; EvWrite fd [x0d] true].
Proof.
  intros Hfd Hnz Hrun Hopen Hfaults Henc.
  destruct (@older_send_command_ok command data w fd
              Hfd Hnz Hrun Hopen Hfaults Henc) as [evs [Htr [Hret Hw]]].
  rewrite (@new_events_app _ _ evs Htr). split; assumption.
Qed.

Lemma older_send_command_always_appends_cr_witness :
  let w := world_of (started_wrapper 3 100) [3%Z] [] [100%Z] in
  wire_events (new_events w (fst (Simplified.send_command [ESC; 91; 65]%N w)))
  = [EvWrite 3 [x1b; x5b; x41] true; EvSleep 1000; EvWrite 3 [x0d] true].
Proof.
  cbv zeta.
  apply (proj2 (@older_send_command_always_appends_cr
                  [ESC; 91; 65]%N [x1b; x5b; x41]
                  (world_of (started_wrapper 3 100) [3%Z] [] [100%Z]) 3%Z
                  eq_refl ltac:(discriminate) eq_refl eq_refl eq_refl
                  eq_refl)).
Defined.




End OlderDispatch.

(* ===================================================================== *)
(** ** The I/O loop *)
(* ===================================================================== *)

Module LoopFacts.
Import Text Utf8 Classifier Effects Loop Design Notions LoopNotions.
Import ClassifierFacts EffectsFacts.

Lemma terminal_output_app a b :
  terminal_output (a ++ b) = (terminal_output a ++ terminal_output b)%list.
Proof.
  induction a as [| e a IH]; [reflexivity |].
  destruct e; cbn; rewrite IH; reflexivity.
Qed.

Lemma written_chunks_app a b :
  written_chunks (a ++ b) = (written_chunks a ++ written_chunks b)%list.
Proof.
  induction a as [| e a IH]; [reflexivity |].
  destruct e; cbn; rewrite IH; reflexivity.
Qed.

(** [log_chunk] touches neither the calls' world nor the terminal. *)
Lemma log_chunk_base from_child data lw :
  base (log_chunk from_child data lw) = base lw /\
  terminal_output (side (log_chunk from_child data lw))
  = terminal_output (side lw).
Proof.
  unfold log_chunk.
  destruct (debug_handle (self (base lw))) as [h |]; [| auto].
  destruct (mem h (open_files (base lw))); cbn [base side emit_side];
    (split; [reflexivity |]); rewrite terminal_output_app; cbn;
    apply app_nil_r.
Qed.

Section WithLower.

Variable lower : text -> text.

(** The child's output of one round: either a chunk that is not empty is
    fed and written out, or nothing changes (and the loop goes on only
    if nothing was ready). *)
Lemma child_output_cases r lw :
  let lw' := fst (child_output lower r lw) in
  let f := snd (child_output lower r lw) in
  trace (base lw') = trace (base lw) /\
  write_faults (base lw') = write_faults (base lw) /\
  open_fds (base lw') = open_fds (base lw) /\
  running (self (base lw')) = running (self (base lw)) /\
  master_fd (self (base lw')) = master_fd (self (base lw)) /\
  ((exists data,
       master_ready r = true /\ master_read r = Some data /\ data <> [] /\
       f = Continue /\
       state (self (base lw'))
       = parse_output lower (now r) (state (self (base lw))) data /\
       terminal_output (side lw')
       = (terminal_output (side lw) ++ [data])%list)
   \/
   (state (self (base lw')) = state (self (base lw)) /\
    terminal_output (side lw') = terminal_output (side lw) /\
    (f = Continue -> master_ready r = false))).
Proof.
  cbv zeta. unfold child_output.
  destruct (master_ready r) eqn:Hr.
  2:{ cbn [fst snd]. repeat split; auto. }
  destruct (master_read r) as [[| b data] |] eqn:Hd; cbn [fst snd].
  - repeat split; auto. right. repeat split; auto. discriminate.
  - destruct (log_chunk_base true (b :: data) lw) as [Hb Ht].
    unfold feed. cbn [base side emit_side with_self self trace write_faults
                      open_fds].
    rewrite Hb. destruct (self (base lw)) eqn:Es.
    cbn [set_state running master_fd state].
    repeat split; auto. left. exists (b :: data).
    repeat split; auto; [discriminate |].
    rewrite terminal_output_app, Ht. reflexivity.
  - repeat split; auto. right. repeat split; auto. discriminate.
Qed.

(** The user's input of one round: nothing but one write to the master
    descriptor, of the chunk read, when that chunk is not empty. *)
Lemma user_input_cases fd r lw :
  let lw' := fst (user_input fd r lw) in
  self (base lw') = self (base lw) /\
  terminal_output (side lw') = terminal_output (side lw) /\
  ((trace (base lw') = trace (base lw) /\
    (snd (user_input fd r lw) = Continue ->
     forall b data, stdin_ready r = true -> stdin_read r <> Some (b :: data)))
   \/
   (exists b data ok,
       stdin_ready r = true /\ stdin_read r = Some (b :: data) /\
       trace (base lw')
       = (trace (base lw) ++ [EvWrite fd (b :: data) ok])%list)).
Proof.
  cbv zeta. unfold user_input.
  destruct (stdin_ready r) eqn:Hr.
  2:{ cbn [fst snd]. repeat split; auto. left. split; auto.
      intros _ b data H. discriminate H. }
  destruct (stdin_read r) as [[| b data] |] eqn:Hd; cbn [fst snd].
  - repeat split; auto. left. split; auto. intros _ b data _ H.
    discriminate H.
  - destruct (log_chunk_base false (b :: data) lw) as [Hb Ht].
    assert (Hw : exists ok,
      self (fst (os_write fd (b :: data) (base lw))) = self (base lw) /\
      trace (fst (os_write fd (b :: data) (base lw)))
      = (trace (base lw) ++ [EvWrite fd (b :: data) ok])%list).
    { unfold os_write. destruct (mem fd (open_fds (base lw)));
        [destruct (write_faults (base lw)) as [| [] ?] |];
        cbn; eexists; split; reflexivity. }
    destruct Hw as [ok [Hs Htr]]. rewrite Hb.
    destruct (os_write fd (b :: data) (base lw)) as [w' [u | e]];
      cbn [fst snd base side] in *;
      (repeat split; auto; right; exists b, data, ok; auto).
  - repeat split; auto. left. split; auto. discriminate.
Qed.

(** The check on the child writes nothing and leaves the wrapper object
    alone. *)
Lemma child_check_frame r lw :
  self (base (fst (child_check r lw))) = self (base lw) /\
  trace (base (fst (child_check r lw))) = trace (base lw) /\
  side (fst (child_check r lw)) = side lw.
Proof.
  unfold child_check.
  destruct (claude_pid (self (base lw))) as [pid |]; [| auto].
  destruct (child_exited r) as [[|] |]; auto.
Qed.

(** What one pass of the loop body does to the classifier and the
    terminal. *)
Lemma iteration_output fd r lw :
  let lw' := fst (iteration lower fd r lw) in
  let f := snd (iteration lower fd r lw) in
  running (self (base lw')) = running (self (base lw)) /\
  master_fd (self (base lw')) = master_fd (self (base lw)) /\
  ((exists data,
       master_ready r = true /\ master_read r = Some data /\ data <> [] /\
       state (self (base lw'))
       = parse_output lower (now r) (state (self (base lw))) data /\
       terminal_output (side lw')
       = (terminal_output (side lw) ++ [data])%list)
   \/
   (state (self (base lw')) = state (self (base lw)) /\
    terminal_output (side lw') = terminal_output (side lw) /\
    (f = Continue ->
     master_ready r = false \/ master_read r = None))).
Proof.
  cbv zeta. unfold iteration.
  pose proof (child_output_cases r lw) as Hc. cbv zeta in Hc.
  destruct (child_output lower r lw) as [lw1 f1]. cbn [fst snd] in Hc.
  destruct Hc as [_ [_ [_ [Hrun [Hfd Hc]]]]].
  pose proof (user_input_cases fd r lw1) as Hu. cbv zeta in Hu.
  destruct (user_input fd r lw1) as [lw2 f2]. cbn [fst snd] in Hu.
  destruct Hu as [Hself [Hterm _]].
  destruct f1 as [| | e1].
  - destruct (child_check_frame r lw2) as [Hcs [_ Hcd]].
    assert (E : self (base (fst (match f2 with
                                 | Continue => child_check r lw2
                                 | _ => (lw2, f2)
                                 end))) = self (base lw2)
                /\ side (fst (match f2 with
                              | Continue => child_check r lw2
                              | _ => (lw2, f2)
                              end)) = side lw2)
      by (destruct f2; auto).
    destruct E as [E1 E2].
    rewrite E1, E2, Hself. split; [exact Hrun |]. split; [exact Hfd |].
    rewrite Hterm.
    destruct Hc as [[data [H1 [H2 [H3 [_ [H5 H6]]]]]] | [H1 [H2 H3]]].
    + left. exists data. auto.
    + right. split; [exact H1 |]. split; [exact H2 |].
      intros _. left. apply H3. reflexivity.
  - cbn [fst snd]. split; [exact Hrun |]. split; [exact Hfd |].
    destruct Hc as [[data [_ [_ [_ [H4 _]]]]] | [H1 [H2 _]]];
      [discriminate H4 |].
    right. split; [exact H1 |]. split; [exact H2 |]. discriminate.
  - cbn [fst snd]. split; [exact Hrun |]. split; [exact Hfd |].
    destruct Hc as [[data [_ [_ [_ [H4 _]]]]] | [H1 [H2 _]]];
      [discriminate H4 |].
    right. split; [exact H1 |]. split; [exact H2 |]. discriminate.
Qed.

(** X22.  Whatever the rounds bring, the chunks the loop feeds to the
    classifier are the chunks it writes to [sys.stdout.buffer], the same
    bytes in the same order; none of them is empty, and they are the
    first ones the child had ready. *)
Theorem loop_feeds_what_it_forwards ticks lw :
  let lw' := fst (io_loop lower ticks lw) in
  exists fed rest,
    offered_output ticks = (fed ++ rest)%list /\
    Forall (fun c => snd c <> []) fed /\
    state (self (base lw'))
    = ingest_all lower (state (self (base lw))) fed /\
    terminal_output (side lw')
    = (terminal_output (side lw) ++ map snd fed)%list.
Proof.
  cbv zeta. revert lw.
  assert (Hstop : forall ticks lw,
    exists fed rest,
      offered_output ticks = (fed ++ rest)%list /\
      Forall (fun c : Z * list byte => snd c <> []) fed /\
      state (self (base lw)) = ingest_all lower (state (self (base lw))) fed /\
      terminal_output (side lw)
      = (terminal_output (side lw) ++ map snd fed)%list).
  { intros ts lw. exists [], (offered_output ts).
    repeat split; [constructor | symmetry; apply app_nil_r]. }
  induction ticks as [| t ticks IH]; intros lw; cbn [io_loop].
  - destruct (running (self (base lw))); apply Hstop.
  - destruct (running (self (base lw))); [| apply Hstop].
    destruct t as [r |]; [| apply Hstop].
    destruct (master_fd (self (base lw))) as [fd |]; [| apply Hstop].
    destruct (mem fd (open_fds (base lw))); [| apply Hstop].
    pose proof (iteration_output fd r lw) as Hi. cbv zeta in Hi.
    destruct (iteration lower fd r lw) as [lw1 f]. cbn [fst snd] in Hi.
    destruct Hi as [_ [_ Hi]].
    destruct (IH lw1) as [fed [rest [Hoff [Hne [Hst Hout]]]]].
    assert (Hleft : forall lw2 (ending : loop_end),
      lw2 = lw1 ->
      exists fed rest,
        offered_output (Round r :: ticks) = (fed ++ rest)%list /\
        Forall (fun c : Z * list byte => snd c <> []) fed /\
        state (self (base (fst (lw2, ending))))
        = ingest_all lower (state (self (base lw))) fed /\
        terminal_output (side (fst (lw2, ending)))
        = (terminal_output (side lw) ++ map snd fed)%list).
    { intros lw2 ending ->. cbn [fst].
      destruct Hi as [[data [H1 [H2 [H3 [H4 H5]]]]] | [H1 [H2 H3]]].
      - exists [(now r, data)], (offered_output ticks).
        split; [cbn [offered_output]; rewrite H1, H2; reflexivity |].
        split; [constructor; [exact H3 | constructor] |].
        split; [rewrite H4; reflexivity | rewrite H5; reflexivity].
      - exists [], (offered_output (Round r :: ticks)).
        split; [reflexivity |]. split; [constructor |].
        split; [rewrite H1; reflexivity |].
        rewrite H2. symmetry. apply app_nil_r. }
    destruct f as [| | e]; [| apply Hleft; reflexivity ..].
    destruct Hi as [[data [H1 [H2 [H3 [H4 H5]]]]] | [H1 [H2 H3]]].
    + cbn [offered_output]. rewrite H1, H2.
      exists ((now r, data) :: fed), rest.
      split; [cbn; rewrite Hoff; reflexivity |].
      split; [constructor; [exact H3 | exact Hne] |].
      split.
      * rewrite Hst, H4. reflexivity.
      * rewrite Hout, H5, <- app_assoc. reflexivity.
    + exists fed, rest.
      split.
      { cbn [offered_output].
        destruct (H3 eq_refl) as [E | E]; rewrite E; [exact Hoff |].
        destruct (master_ready r); exact Hoff. }
      split; [exact Hne |].
      split; [rewrite Hst, H1; reflexivity |].
      rewrite Hout, H2. reflexivity.
Qed.



(** Every pass keeps the wrapper running. *)
Lemma io_loop_interrupt pre post lw :
  snd (io_loop lower (pre ++ KeyboardInterrupt :: post) lw) <> StillRunning.
Proof.
  revert lw. induction pre as [| t pre IH]; intros lw; cbn [app io_loop].
  - destruct (running (self (base lw))); discriminate.
  - destruct (running (self (base lw))); [| discriminate].
    destruct t as [r |]; [| discriminate].
    destruct (master_fd (self (base lw))) as [fd |]; [| discriminate].
    destruct (mem fd (open_fds (base lw))); [| discriminate].
    destruct (iteration lower fd r lw) as [lw1 [| | e]];
      [apply IH | discriminate ..].
Qed.

(** X24.  When the loop is left, by a break, an interrupt or an
    exception, [cleanup] has run: the wrapper is not running any more
    and refuses every command; the classifier's state is the one the
    loop left.  An interrupt among the ticks always ends the run. *)
Theorem run_ends_with_cleanup ticks lw :
  (forall lw' r,
      run_loop lower ticks lw = (lw', Some r) ->
      running (self (base lw')) = false /\
      (forall command,
          Wrapper.send_command command (base lw') = (base lw', Ret false)) /\
      state (self (base lw'))
      = state (self (base (fst (io_loop lower ticks lw)))) /\
      side lw' = side (fst (io_loop lower ticks lw))) /\
  (forall pre post,
      ticks = (pre ++ KeyboardInterrupt :: post)%list ->
      snd (run_loop lower ticks lw) <> None).
Proof.
  split.
  - intros lw' r. unfold run_loop.
    destruct (io_loop lower ticks lw) as [lw1 e]. cbn [fst].
    assert (H : forall w'' res,
      Wrapper.cleanup (base lw1) = (w'', res) ->
      running (self w'') = false /\
      (forall command,
          Wrapper.send_command command w'' = (w'', Ret false)) /\
      state (self w'') = state (self (base lw1))).
    { intros w'' res Hc.
      assert (Hs : self w'' = set_running false (self (base lw1))).
      { rewrite <- cleanup_self, Hc. reflexivity. }
      split; [rewrite Hs; destruct (self (base lw1)); reflexivity |].
      split; [| rewrite Hs; destruct (self (base lw1)); reflexivity].
      intros command.
      unfold Wrapper.send_command, bind, get_self, ret.
      rewrite Hs. destruct (self (base lw1)) as [mfd ? ? ? ? ? ? ? ? ? ? ?].
      cbn [master_fd running set_running].
      destruct mfd as [fd |]; [| reflexivity].
      rewrite andb_false_r. reflexivity. }
    destruct (Wrapper.cleanup (base lw1)) as [w'' res] eqn:Hc.
    specialize (H w'' res eq_refl). destruct H as [H1 [H2 H3]].
    destruct e; [discriminate | | |];
      destruct res; intros [= <- _]; cbn [base side]; auto.
  - intros pre post ->. unfold run_loop.
    pose proof (io_loop_interrupt pre post lw) as Hi.
    destruct (io_loop lower (pre ++ KeyboardInterrupt :: post) lw)
      as [lw1 e]. cbn [snd] in Hi.
    destruct e; [contradiction | | |];
      destruct (Wrapper.cleanup (base lw1)) as [w'' [u | ex]];
      discriminate.
Qed.

End WithLower.

Lemma run_ends_with_cleanup_witness :
  snd (run_loop ascii_lower [KeyboardInterrupt]
         (mkLoopWorld (world_of (started_wrapper 3 100) [3%Z] [] [100%Z]) []))
  <> None.
Proof.
  apply (proj2 (run_ends_with_cleanup ascii_lower [KeyboardInterrupt]
                  (mkLoopWorld
                     (world_of (started_wrapper 3 100) [3%Z] [] [100%Z]) []))
               [] []).
  reflexivity.
Defined.

End LoopFacts.

(* ===================================================================== *)
(** ** The stand-in server *)
(* ===================================================================== *)

Module TestServerFacts.
Import Text Utf8 Effects Wrapper LoopNotions TestServer.

Lemma do_POST_records req st :
  commands_received (fst (fst (do_POST req st)))
  = (commands_received st ++ carried req)%list /\
  snd (fst (do_POST req st)) = carried req.
Proof.
  unfold do_POST, carried.
  destruct (Text.eqb (path req) (cps "/command")); cbn [fst snd];
    [| split; [symmetry; apply app_nil_r | reflexivity]].
  destruct (loads req) as [data | e].
  - destruct data as [| b | z | t | l | items]; cbn [get fst snd];
      try (split; [symmetry; apply app_nil_r | reflexivity]).
    destruct (printable match assoc (cps "command") items with
                        | Some v => v
                        | None => JStr []
                        end); cbn [fst snd];
      (split; [first [reflexivity | symmetry; apply app_nil_r]
              | reflexivity]).
  - destruct (isinstance e JSONDecodeError); cbn [fst snd];
      (split; [symmetry; apply app_nil_r | reflexivity]).
Qed.

(** X25.  The stand-in server keeps every command it has printed: after
    any sequence of POSTs its list holds, in arrival order, one entry
    for each object body posted to "/command" (the empty string when the
    body has no "command", and [null] as it is), nothing for the
    requests it answers with 400 or 404 or does not answer; and GET
    /state shows that list.  A command string with a lone surrogate is
    one it does not answer: [print] raises [UnicodeEncodeError] before
    the command is appended. *)
Theorem test_server_records_in_order reqs st :
  commands_received (post_all reqs st)
  = (commands_received st ++ flat_map carried reqs)%list /\
  do_GET (cps "/state") (post_all reqs st)
  = json_200
      (JObj [(cps "mode", JStr (cps "test"));
             (cps "prompt", JStr (cps "test> "));
             (cps "commands_received",
              JArr (commands_received st ++ flat_map carried reqs))]) /\
  (forall items t,
      assoc (cps "command") items = Some (JStr t) ->
      forallb encodable t = false ->
      do_POST (mkRequest (cps "/command") (Ret (JObj items))) st
      = (st, [], Raise UnicodeEncodeError)).
Proof.
  assert (H : commands_received (post_all reqs st)
              = (commands_received st ++ flat_map carried reqs)%list).
  { unfold post_all. revert st.
    induction reqs as [| req reqs IH]; intros st; cbn [fold_left flat_map].
    - symmetry. apply app_nil_r.
    - rewrite IH, (proj1 (do_POST_records req st)), <- app_assoc.
      reflexivity. }
  split; [exact H |]. split.
  - unfold do_GET, get_state.
    change (Text.eqb (cps "/state") (cps "/state")) with true. cbv iota.
    rewrite H. reflexivity.
  - intros items t Hget Hbad. unfold do_POST. cbn [path loads get].
    change (Text.eqb (cps "/command") (cps "/command")) with true. cbv iota.
    rewrite Hget. cbn [printable]. rewrite Hbad. reflexivity.
Qed.

(** Two well-formed commands and, between them, one with a lone
    surrogate. *)
Lemma test_server_records_in_order_witness :
  let post c := mkRequest (cps "/command") (Ret (JObj [(cps "command", c)])) in
  do_POST (post (JStr [0xD800%N])) (mkTestState [])
  = (mkTestState [], [], Raise UnicodeEncodeError) /\
  commands_received
    (post_all [post (JStr (cps "a")); post (JStr [0xD800%N]);
               post (JStr (cps "b"))] (mkTestState []))
  = [JStr (cps "a"); JStr (cps "b")].
Proof.
  cbv zeta. split.
  - apply (proj2 (proj2 (test_server_records_in_order [] (mkTestState [])))
             [(cps "command", JStr [0xD800%N])] [0xD800%N]);
      reflexivity.
  - reflexivity.
Defined.

End TestServerFacts.
